(** * eslint-doc-generator: header merge, notices, titles and validation

    A shallow embedding of [src/lib/markdown.ts], [src/lib/rule-notices.ts]
    and [src/lib/generator.ts].  A JavaScript string is held as the UTF-8
    encoding of its text, a [string] of bytes (the strings the program
    handles are decoded files and program arguments, so they have no lone
    surrogate); its [length] is counted in UTF-16 code units.  Arrays are
    [list]s, [undefined] is [None], the file system is a finite map from
    paths to contents, and the effects of [generate] (file writes,
    [console.error], [process.exitCode], thrown errors) are threaded
    through an explicit state. *)

From Stdlib Require Import ZArith Ascii String List Bool Lia.
From stdpp Require Import base option list strings gmap.

Local Open Scope string_scope.
Local Open Scope list_scope.
Local Open Scope Z_scope.

(** ** JavaScript string and array primitives used by the sources *)

Module Js.

(** [s.startsWith(p)] *)
Definition startsWith (s p : string) : bool := String.prefix p s.

(** [s.includes(t)]: [t] occurs in [s] as a substring. *)
Fixpoint includes (s t : string) : bool :=
  String.prefix t s ||
  match s with
  | EmptyString => false
  | String _ s' => includes s' t
  end.

(** [arr.includes(x)] on an array of strings. *)
Definition arr_includes (arr : list string) (x : string) : bool :=
  existsb (String.eqb x) arr.

(** Truthiness of a string and of a possibly [undefined] string. *)
Definition truthy (s : string) : bool := negb (String.eqb s "").

Definition truthy_opt (o : option string) : bool :=
  match o with
  | Some s => truthy s
  | None => false
  end.

(** [arr.indexOf(x)]: the index of the first element strictly equal to
    [x], or [-1]. *)
Fixpoint indexOf (arr : list string) (x : string) : Z :=
  match arr with
  | [] => -1
  | y :: arr' =>
      if String.eqb y x then 0
      else let i := indexOf arr' x in if i =? -1 then -1 else i + 1
  end.

(** [arr.splice(0, deleteCount, ...items)], as the resulting array.
    The delete count is clamped to [0 .. arr.length]. *)
Definition splice0 (arr : list string) (deleteCount : Z)
    (items : list string) : list string :=
  items ++ drop (Z.to_nat (Z.max 0 deleteCount)) arr.

(** [arr.join(sep)] *)
Fixpoint join (sep : string) (arr : list string) : string :=
  match arr with
  | [] => ""
  | [x] => x
  | x :: arr' => x +:+ sep +:+ join sep arr'
  end.

(** The UTF-16 code units a byte of a UTF-8 text accounts for: one for
    an ASCII byte and for the first byte of a two- or three-byte
    sequence, two (a surrogate pair) for the first byte of a four-byte
    sequence, none for a continuation byte. *)
Definition codeUnits (c : ascii) : nat :=
  let n := nat_of_ascii c in
  if (n <? 128)%nat then 1%nat
  else if (n <? 192)%nat then 0%nat
  else if (n <? 240)%nat then 1%nat
  else 2%nat.

(** [s.length] *)
Fixpoint stringLength (s : string) : nat :=
  match s with
  | EmptyString => 0%nat
  | String c s' => (codeUnits c + stringLength s')%nat
  end.

(** The bytes that hold the code unit at the start of [s]: the whole
    sequence of a character of one, two or three bytes; for a character
    of four bytes, its first two bytes stand for the high surrogate and
    its last two (which start with a continuation byte) for the low
    one. *)
Definition unitBytes (s : string) : nat :=
  match s with
  | EmptyString => 0%nat
  | String c _ =>
      let n := nat_of_ascii c in
      if (n <? 128)%nat then 1%nat
      else if (n <? 224)%nat then 2%nat
      else if (n <? 240)%nat then 3%nat
      else 2%nat
  end.

(** [s.slice(0, n)] and [s.slice(n)], with [n] counted in bytes. *)
Fixpoint takeBytes (n : nat) (s : string) : string :=
  match n, s with
  | S n', String c s' => String c (takeBytes n' s')
  | _, _ => EmptyString
  end.

Fixpoint dropBytes (n : nat) (s : string) : string :=
  match n, s with
  | S n', String _ s' => dropBytes n' s'
  | _, _ => s
  end.

End Js.

(** ** Errors *)

(** A call either returns a value or throws an [Error] with a message. *)
Inductive Result (A : Type) :=
| Ok (a : A)
| Throw (message : string).

Arguments Ok {A} a.
Arguments Throw {A} message.

Definition bindResult {A B} (r : Result A) (f : A -> Result B) : Result B :=
  match r with
  | Ok a => f a
  | Throw message => Throw message
  end.

Notation "'let*' x ':=' r 'in' k" := (bindResult r (fun x => k))
  (at level 10, x name, r at level 100, k at level 200).

(** ** The plugin data model ([types.ts], as the sources use it) *)

(** A value on which the sources call [.includes]: an array of strings,
    or a string (then [includes] is the substring test). *)
Inductive Includable :=
| IncArray (arr : list string)
| IncString (s : string).

Definition includable_includes (v : Includable) (x : string) : bool :=
  match v with
  | IncArray arr => Js.arr_includes arr x
  | IncString s => Js.includes s x
  end.

Section PluginModel.

(** The JSON schema of a rule's options; [rule-options.ts] reads it. *)
Variable Schema : Type.

Record RuleDocs := {
  description : option string;
  requiresTypeChecking : option bool;
}.

Record RuleMeta := {
  docs : option RuleDocs;
  fixable : option string;
  hasSuggestions : option bool;
  deprecated : option bool;
  replacedBy : option (list string);
  schema : Schema;
}.

(** A rule is an object with [meta], or a function (the deprecated
    function-style format). *)
Inductive RuleModule :=
| RuleObject (meta : RuleMeta)
| RuleFunction.

(** [plugin.rules] with its entries in [Object.entries] order. *)
Record Plugin := {
  rules : option (list (string * RuleModule));
}.

(** The entry of [rules] under the key [ruleName], if it has one. *)
Definition lookupRule (entries : list (string * RuleModule))
    (ruleName : string) : option RuleModule :=
  snd <$> find (fun e => String.eqb (fst e) ruleName) entries.

(** What the property access [rules[ruleName]] gives.  [rules] is an
    ordinary object (the [rules] object literal of a plugin), so a key
    that is not one of its entries is looked up in [Object.prototype]:
    the method names give a function, [__proto__] gives the prototype
    itself, an object without [meta], and any other key gives
    [undefined]. *)
Definition objectPrototypeMethods : list string :=
  ["constructor"; "hasOwnProperty"; "isPrototypeOf";
   "propertyIsEnumerable"; "toLocaleString"; "toString"; "valueOf";
   "__defineGetter__"; "__defineSetter__"; "__lookupGetter__";
   "__lookupSetter__"].

Inductive PropertyValue :=
| RuleValue (rule : RuleModule)
| ObjectPrototype.

Definition ruleProperty (entries : list (string * RuleModule))
    (ruleName : string) : option PropertyValue :=
  match lookupRule entries ruleName with
  | Some rule => Some (RuleValue rule)
  | None =>
      if Js.arr_includes objectPrototypeMethods ruleName
      then Some (RuleValue RuleFunction)
      else if String.eqb ruleName "__proto__" then Some ObjectPrototype
      else None
  end.

(** [RuleDetails], gathered once per run by [generate]. *)
Record RuleDetails := {
  rd_name : string;
  rd_description : option string;
  rd_fixable : bool;
  rd_hasSuggestions : bool;
  rd_requiresTypeChecking : bool;
  rd_deprecated : bool;
  rd_schema : Schema;
}.

End PluginModel.

Arguments Build_RuleMeta {Schema}.
Arguments docs {Schema}.
Arguments fixable {Schema}.
Arguments hasSuggestions {Schema}.
Arguments deprecated {Schema}.
Arguments replacedBy {Schema}.
Arguments schema {Schema}.
Arguments RuleObject {Schema}.
Arguments RuleFunction {Schema}.
Arguments Build_Plugin {Schema}.
Arguments rules {Schema}.
Arguments lookupRule {Schema}.
Arguments RuleValue {Schema}.
Arguments ObjectPrototype {Schema}.
Arguments ruleProperty {Schema}.
Arguments Build_RuleDetails {Schema}.
Arguments rd_name {Schema}.
Arguments rd_description {Schema}.
Arguments rd_fixable {Schema}.
Arguments rd_hasSuggestions {Schema}.
Arguments rd_requiresTypeChecking {Schema}.
Arguments rd_deprecated {Schema}.
Arguments rd_schema {Schema}.

(** The modules this development imports without embedding them:
    [emojis.ts], [markers.ts], [rule-doc-title-format.ts], [configs.ts],
    [rule-options.ts], [package-json.ts], [config-resolution.ts],
    [rule-list.ts], [node:path] and the markdown formatter; and, of the
    platform, the regular expressions written with more syntax than
    [Markdown] embeds: for such a source, [hostRegExp source] is what
    [new RegExp(source, 'gi')] does, which is to throw a [SyntaxError]
    or to return a pattern, given here by the texts of the matches that
    [matchAll] lists for a string. *)
Class Externals := {
  Schema : Type;
  ConfigsToRules : Type;
  EMOJI_DEPRECATED : string;
  EMOJI_FIXABLE : string;
  EMOJI_HAS_SUGGESTIONS : string;
  EMOJI_CONFIGS : string;
  EMOJI_CONFIG_RECOMMENDED : string;
  END_RULE_HEADER_MARKER : string;
  RULE_DOC_TITLE_FORMAT_DEFAULT : string;
  getConfigsForRule : string -> ConfigsToRules -> string -> list string;
  configNamesToList : list string -> string;
  emptyArraySchema : Schema;
  hasOptions : Schema -> bool;
  getAllNamedOptions : Schema -> list string;
  loadPlugin : string -> Plugin Schema;
  getPluginPrefix : string -> string;
  getPluginRoot : string -> string;
  resolveConfigsToRules : Plugin Schema -> ConfigsToRules;
  path_resolve : string -> string -> string;
  path_join : list string -> string;
  path_relative : string -> string -> string;
  format : string -> string -> string;
  updateRulesList :
    list (RuleDetails Schema) -> string -> Plugin Schema -> ConfigsToRules ->
    string -> string -> option string -> string;
  hostRegExp : string -> Result (string -> list string);
}.

(** ** [src/lib/markdown.ts] *)

Module Markdown.

(** [replaceOrCreateHeader(lines, newHeaderLines, marker)].  The source
    mutates [lines] in place; the function returns the array as it is
    after the call. *)
Definition replaceOrCreateHeader (lines newHeaderLines : list string)
    (marker : string) : list string :=
  let markerLineIndex := Js.indexOf lines marker in
  let lines1 :=
    if (markerLineIndex =? -1)
       && (0 <? Z.of_nat (length lines))
       && match lines with
          | l0 :: _ => Js.startsWith l0 "# "
          | [] => false
          end
    then Js.splice0 lines 1 []
    else lines in
  Js.splice0 lines1 (markerLineIndex + 1) newHeaderLines.

(** The same function body run on strings, which is how [generate]
    calls it: [lines.indexOf(marker)] is then the substring search
    ([-1] when [lines] does not include [marker]), [lines[0]] is the
    first code unit of the text, and a string has no [splice] method,
    so whichever [lines.splice(...)] call is reached throws a
    [TypeError].  A call that returned would return [undefined], the
    function having no [return] statement. *)
Definition replaceOrCreateHeaderOnStrings (lines newHeaderLines
    marker : string) : Result (option string) :=
  let markerAbsent := negb (Js.includes lines marker) in
  if markerAbsent
     && (0 <? Z.of_nat (Js.stringLength lines))
     && Js.startsWith (Js.takeBytes (Js.unitBytes lines) lines) "# "
  then Throw "lines.splice is not a function"
  else Throw "lines.splice is not a function".

(** *** Regular expressions

    [findSectionHeader] builds [new RegExp(`##.* ${str}.*\n`, 'gi')]:
    the search phrase becomes part of the pattern as it is, so the
    characters of the phrase that are regular-expression syntax keep
    their meaning.  The syntax embedded here is: a pattern character or
    [.], each followed by an optional quantifier [*], [+] or [?], which
    a further [?] makes lazy.  A source written with any other syntax
    is left to the platform ([hostRegExp]). *)

Inductive Atom :=
| Char (c : ascii)
| Dot.

Inductive Quantifier :=
| Once
| Star (greedy : bool)
| Plus (greedy : bool)
| Opt (greedy : bool).

Definition Term : Type := Atom * Quantifier.

(** A pattern: one written in the embedded syntax, by its terms, or
    one of the platform, by its matches. *)
Inductive RegExp :=
| Embedded (terms : list Term)
| Host (matcher : string -> list string).

Definition isQuantifierChar (c : ascii) : bool :=
  (c =? "*")%char || (c =? "+")%char || (c =? "?")%char.

Definition quantifierOf (c : ascii) (greedy : bool) : Quantifier :=
  if (c =? "*")%char then Star greedy
  else if (c =? "+")%char then Plus greedy
  else Opt greedy.

Definition atomOf (c : ascii) : Atom :=
  if (c =? ".")%char then Dot else Char c.

(** The terms of a pattern; [None] where a quantifier has nothing to
    repeat. *)
Fixpoint parseTerms (source : string) : option (list Term) :=
  match source with
  | EmptyString => Some []
  | String c rest =>
      if isQuantifierChar c then None
      else
        match rest with
        | String q rest' =>
            if isQuantifierChar q then
              match rest' with
              | String l rest'' =>
                  if (l =? "?")%char then
                    cons (atomOf c, quantifierOf q false)
                    <$> parseTerms rest''
                  else
                    cons (atomOf c, quantifierOf q true)
                    <$> parseTerms rest'
              | EmptyString => Some [(atomOf c, quantifierOf q true)]
              end
            else cons (atomOf c, Once) <$> parseTerms rest
        | EmptyString => Some [(atomOf c, Once)]
        end
  end.

(** The characters a source must not have to be read by [parseTerms]:
    the other syntax characters (anchors, escapes, groups, classes,
    braces, alternation), and every character outside ASCII, whose case
    folding is not embedded. *)
Definition outsideFragment (c : ascii) : bool :=
  negb (nat_of_ascii c <? 128)%nat
  || existsb (Ascii.eqb c)
       ["^"; "$"; "\"; "("; ")"; "["; "]"; "{"; "}"; "|"]%char.

Fixpoint anyChar (f : ascii -> bool) (s : string) : bool :=
  match s with
  | EmptyString => false
  | String c s' => f c || anyChar f s'
  end.

(** [.] matches any code unit except a line terminator: line feed,
    carriage return, U+2028 and U+2029 (in UTF-8 the bytes E2 80 A8 and
    E2 80 A9). *)
Definition atLineTerminator (s : string) : bool :=
  match s with
  | String c s' =>
      (c =? "010")%char || (c =? "013")%char
      || ((c =? "226")%char
          && match s' with
             | String c1 (String c2 _) =>
                 (c1 =? "128")%char
                 && ((c2 =? "168")%char || (c2 =? "169")%char)
             | _ => false
             end)
  | EmptyString => false
  end.

(** Case folding of the [i] flag: a character is compared by its upper
    case, which for a pattern character in ASCII is met by that letter
    in either case only (a character outside ASCII is never folded
    onto an ASCII one). *)
Definition canonicalize (c : ascii) : ascii :=
  let n := nat_of_ascii c in
  if ((97 <=? n) && (n <=? 122))%nat then ascii_of_nat (n - 32) else c.

(** One code unit of [s] matched by an atom: the bytes matched and the
    text after them. *)
Definition stepAtom (a : Atom) (s : string) : option (string * string) :=
  match a with
  | Char c =>
      match s with
      | String d s' =>
          if (canonicalize c =? canonicalize d)%char
          then Some (String d "", s')
          else None
      | EmptyString => None
      end
  | Dot =>
      match s with
      | String _ _ =>
          if atLineTerminator s then None
          else Some (Js.takeBytes (Js.unitBytes s) s,
                     Js.dropBytes (Js.unitBytes s) s)
      | EmptyString => None
      end
  end.

(** A continuation takes the text that is left and gives the text the
    rest of the pattern matches there. *)
Definition Continuation : Type := string -> option string.

Definition matchOne (a : Atom) (k : Continuation) : Continuation :=
  fun s =>
    match stepAtom a s with
    | Some (u, s') => String.append u <$> k s'
    | None => None
    end.

Definition orElse (first second : option string) : option string :=
  match first with
  | Some m => Some m
  | None => second
  end.

(** An atom repeated: a greedy quantifier tries one more repetition
    before it tries the continuation, a lazy one the continuation
    first.  Every repetition takes at least one byte, so [steps] can be
    the number of bytes of [s]. *)
Fixpoint matchRepeat (a : Atom) (greedy : bool) (k : Continuation)
    (steps : nat) (s : string) : option string :=
  match steps with
  | O => k s
  | S steps' =>
      let more := matchOne a (matchRepeat a greedy k steps') s in
      if greedy then orElse more (k s) else orElse (k s) more
  end.

Definition matchTerm (t : Term) (k : Continuation) : Continuation :=
  fun s =>
    match t with
    | (a, Once) => matchOne a k s
    | (a, Star greedy) => matchRepeat a greedy k (String.length s) s
    | (a, Plus greedy) =>
        matchOne a
          (fun s' => matchRepeat a greedy k (String.length s') s') s
    | (a, Opt greedy) =>
        if greedy then orElse (matchOne a k s) (k s)
        else orElse (k s) (matchOne a k s)
    end.

(** The pattern matched at the start of [s]: the text of the match. *)
Fixpoint matchHere (terms : list Term) : Continuation :=
  match terms with
  | [] => fun _ => Some ""
  | t :: terms' => matchTerm t (matchHere terms')
  end.

(** The matches [s.matchAll(re)] lists for a global pattern of the
    embedded syntax: the leftmost match at or after the current
    position, then on from its end, or one code unit further after an
    empty match ([skip] bytes are still to be passed over). *)
Fixpoint matchAllFrom (terms : list Term) (skip : nat) (s : string)
    : list string :=
  match s with
  | EmptyString =>
      match skip, matchHere terms s with
      | O, Some m => [m]
      | _, _ => []
      end
  | String _ s' =>
      match skip with
      | S n => matchAllFrom terms n s'
      | O =>
          match matchHere terms s with
          | Some m =>
              m :: matchAllFrom terms
                     (Nat.max (String.length m) (Js.unitBytes s) - 1) s'
          | None => matchAllFrom terms (Js.unitBytes s - 1) s'
          end
      end
  end.

(** [arr.sort((a, b) => a.length - b.length)]: the sort is stable. *)
Fixpoint insertByLength (a : string) (sorted : list string) : list string :=
  match sorted with
  | [] => [a]
  | b :: sorted' =>
      if (Z.of_nat (Js.stringLength a) - Z.of_nat (Js.stringLength b) <=? 0)
      then a :: sorted
      else b :: insertByLength a sorted'
  end.

Definition sortByLength (arr : list string) : list string :=
  foldr insertByLength [] arr.

(** The template literal [`##.* ${str}.*\n`]. *)
Definition sectionSource (str : string) : string :=
  "##.* " +:+ str +:+ ".*" +:+ String "010" "".

(** The choice [findSectionHeader] makes among the matches (lines 49 to
    62); [None] is [undefined]. *)
Definition selectSectionHeader (sectionPotentialMatches : list string)
    : option string :=
  if (Z.of_nat (length sectionPotentialMatches) =? 0) then None
  else if (Z.of_nat (length sectionPotentialMatches) =? 1)
  then head sectionPotentialMatches
  else head (sortByLength sectionPotentialMatches).

Section WithExternals.

Context `{Externals}.

(** [new RegExp(source, 'gi')]: a source within the embedded syntax is
    a pattern unless a quantifier has nothing to repeat (the wording of
    the message is the engine's). *)
Definition newRegExp (source : string) : Result RegExp :=
  if anyChar outsideFragment source then
    let* matcher := hostRegExp source in
    Ok (Host matcher)
  else
    match parseTerms source with
    | Some terms => Ok (Embedded terms)
    | None =>
        Throw
          ("Invalid regular expression: /" +:+ source
           +:+ "/gi: Nothing to repeat")
    end.

(** [[...s.matchAll(regexp)].map((match) => match[0])] *)
Definition matchAll (regexp : RegExp) (s : string) : list string :=
  match regexp with
  | Embedded terms => matchAllFrom terms 0 s
  | Host matcher => matcher s
  end.

(** [findSectionHeader(markdown, str)] *)
Definition findSectionHeader (markdown str : string)
    : Result (option string) :=
  let* regexp := newRegExp (sectionSource str) in
  let sectionPotentialMatches := matchAll regexp markdown in
  Ok (selectSectionHeader sectionPotentialMatches).

End WithExternals.

End Markdown.

(** ** [src/lib/rule-notices.ts] *)

Module RuleNotices.

Inductive MESSAGE_TYPE :=
| CONFIGS
| CONFIG_RECOMMENDED
| DEPRECATED
| FIXABLE
| HAS_SUGGESTIONS.

(** The keys of a [{ [key in MESSAGE_TYPE]: ... }] literal, in the order
    [for ... in] visits them. *)
Definition messageTypes : list MESSAGE_TYPE :=
  [CONFIGS; CONFIG_RECOMMENDED; DEPRECATED; FIXABLE; HAS_SUGGESTIONS].

Record Notices := {
  n_configs : bool;
  n_configRecommended : bool;
  n_deprecated : bool;
  n_fixable : bool;
  n_hasSuggestions : bool;
}.

Definition notice (notices : Notices) (messageType : MESSAGE_TYPE) : bool :=
  match messageType with
  | CONFIGS => n_configs notices
  | CONFIG_RECOMMENDED => n_configRecommended notices
  | DEPRECATED => n_deprecated notices
  | FIXABLE => n_fixable notices
  | HAS_SUGGESTIONS => n_hasSuggestions notices
  end.

(** *** Title helpers *)

(** [\w] *)
Definition isWordChar (c : ascii) : bool :=
  let n := nat_of_ascii c in
  (((48 <=? n) && (n <=? 57)) || ((65 <=? n) && (n <=? 90))
   || ((97 <=? n) && (n <=? 122)) || (n =? 95))%nat.

Definition toUpperChar (c : ascii) : ascii :=
  let n := nat_of_ascii c in
  if ((97 <=? n) && (n <=? 122))%nat then ascii_of_nat (n - 32) else c.

Definition toLowerChar (c : ascii) : ascii :=
  let n := nat_of_ascii c in
  if ((65 <=? n) && (n <=? 90))%nat then ascii_of_nat (n + 32) else c.

Fixpoint mapString (f : ascii -> ascii) (s : string) : string :=
  match s with
  | EmptyString => EmptyString
  | String c s' => String (f c) (mapString f s')
  end.

(** [s.toUpperCase()], [s.toLowerCase()] (ASCII letters). *)
Definition toUpperCase (s : string) : string := mapString toUpperChar s.
Definition toLowerCase (s : string) : string := mapString toLowerChar s.

(** [s.charAt(0)] and [s.slice(1)] *)
Definition charAt0 (s : string) : string :=
  match s with
  | String c _ => String c ""
  | EmptyString => ""
  end.

Definition slice1 (s : string) : string :=
  match s with
  | String _ s' => s'
  | EmptyString => ""
  end.

(** The replacer function handed to [str.replace] by [toSentenceCase]. *)
Definition sentenceCaseReplacer (txt : string) : string :=
  toUpperCase (charAt0 txt) +:+ toLowerCase (slice1 txt).

(** [str.replace(/^\w/, replacer)]: the pattern matches one word
    character at the start of the string; the replacer receives that
    one-character match, and the rest of the string stays as it is. *)
Definition toSentenceCase (str : string) : string :=
  match str with
  | String c rest =>
      if isWordChar c then sentenceCaseReplacer (String c "") +:+ rest
      else str
  | EmptyString => str
  end.

(** [str.replace(/\.$/, '')]: a period at the very end is dropped. *)
Fixpoint removeTrailingPeriod (str : string) : string :=
  match str with
  | EmptyString => EmptyString
  | String c EmptyString => if (c =? ".")%char then EmptyString else str
  | String c str' => String c (removeTrailingPeriod str')
  end.

(** How a template literal prints a possibly [undefined] string. *)
Definition interpolate (o : option string) : string :=
  match o with
  | Some s => s
  | None => "undefined"
  end.

Section WithExternals.

Context `{Externals}.

Definition getMessages (urlConfigs : option string)
    (messageType : MESSAGE_TYPE) : string :=
  let configsLinkOrWord :=
    if Js.truthy_opt urlConfigs
    then "[configs](" +:+ interpolate urlConfigs +:+ ")" else "configs" in
  let configLinkOrWord :=
    if Js.truthy_opt urlConfigs
    then "[config](" +:+ interpolate urlConfigs +:+ ")" else "config" in
  match messageType with
  | CONFIGS =>
      EMOJI_CONFIGS +:+ " This rule is enabled in the following "
      +:+ configsLinkOrWord +:+ ":"
  | CONFIG_RECOMMENDED =>
      EMOJI_CONFIG_RECOMMENDED
      +:+ " This rule is enabled in the `recommended` "
      +:+ configLinkOrWord +:+ "."
  | DEPRECATED => EMOJI_DEPRECATED +:+ " This rule is deprecated."
  | FIXABLE =>
      EMOJI_FIXABLE
      +:+ " This rule is automatically fixable by the `--fix` [CLI option](https://eslint.org/docs/latest/user-guide/command-line-interface#--fix)."
  | HAS_SUGGESTIONS =>
      EMOJI_HAS_SUGGESTIONS
      +:+ " This rule is manually fixable by editor [suggestions](https://eslint.org/docs/developer-guide/working-with-rules#providing-suggestions)."
  end.

Definition ruleNamesToList (ruleNames : list string) : string :=
  Js.join ", "
    (map (fun ruleName => "[" +:+ ruleName +:+ "](" +:+ ruleName +:+ ".md)")
       ruleNames).

(** [getNoticesForRule(rule, configsEnabled)], on the [meta] of an
    object-style rule. *)
Definition getNoticesForRule (meta : RuleMeta Schema)
    (configsEnabled : list string) : Notices :=
  {| n_configs :=
       (1 <? Z.of_nat (length configsEnabled))
       || ((Z.of_nat (length configsEnabled) =? 1)
           && negb (bool_decide (head configsEnabled = Some "recommended")));
     n_configRecommended :=
       (Z.of_nat (length configsEnabled) =? 1)
       && bool_decide (head configsEnabled = Some "recommended");
     n_deprecated := default false (deprecated meta);
     n_fixable := Js.truthy_opt (fixable meta);
     n_hasSuggestions := default false (hasSuggestions meta) |}.

(** One turn of the loop over the notices of [getRuleNoticeLines]:
    the lines it pushes. *)
Definition noticeLines (meta : RuleMeta Schema)
    (configsEnabled : list string) (urlConfigs : option string)
    (notices : Notices) (messageType : MESSAGE_TYPE) : list string :=
  if negb (notice notices messageType) then []
  else
    let MESSAGES := getMessages urlConfigs in
    [""; match messageType with
         | CONFIGS =>
             MESSAGES CONFIGS +:+ " " +:+ configNamesToList configsEnabled
             +:+ "."
         | DEPRECATED =>
             match replacedBy meta with
             | Some (r :: rs) =>
                 MESSAGES messageType +:+ " It was replaced by "
                 +:+ ruleNamesToList (r :: rs) +:+ "."
             | _ => MESSAGES messageType
             end
         | _ => MESSAGES messageType
         end].

Definition getRuleNoticeLines (ruleName : string) (plugin : Plugin Schema)
    (configsToRules : ConfigsToRules) (pluginPrefix : string)
    (ignoreConfig : option Includable) (urlConfigs : option string)
    : Result (list string) :=
  match rules plugin ≫= (fun entries => ruleProperty entries ruleName) with
  | None => Throw "Rule not found"
  | Some (RuleValue RuleFunction) => Ok []
  | Some ObjectPrototype =>
      Throw "Cannot read properties of undefined (reading 'deprecated')"
  | Some (RuleValue (RuleObject meta)) =>
      let configsEnabled :=
        List.filter
          (fun config =>
             negb match ignoreConfig with
                  | Some v => includable_includes v config
                  | None => false
                  end)
          (getConfigsForRule ruleName configsToRules pluginPrefix) in
      let notices := getNoticesForRule meta configsEnabled in
      Ok (flat_map (noticeLines meta configsEnabled urlConfigs notices)
            messageTypes)
  end.

Definition makeTitle (name : string) (description : option string)
    (pluginPrefix : string) (ruleDocTitleFormat : option string)
    : Result string :=
  let descriptionFormatted :=
    if Js.truthy_opt description
    then (fun d => removeTrailingPeriod (toSentenceCase d)) <$> description
    else None in
  let ruleDocTitleFormatWithFallback :=
    default RULE_DOC_TITLE_FORMAT_DEFAULT ruleDocTitleFormat in
  let ruleDocTitleFormatWithFallback :=
    if Js.includes ruleDocTitleFormatWithFallback "desc"
       && negb (Js.truthy_opt description)
    then "prefix-name" else ruleDocTitleFormatWithFallback in
  if String.eqb ruleDocTitleFormatWithFallback "desc" then
    Ok ("# " +:+ interpolate descriptionFormatted)
  else if String.eqb ruleDocTitleFormatWithFallback "desc-parens-name" then
    Ok ("# " +:+ interpolate descriptionFormatted
        +:+ " (`" +:+ name +:+ "`)")
  else if String.eqb ruleDocTitleFormatWithFallback
            "desc-parens-prefix-name" then
    Ok ("# " +:+ interpolate descriptionFormatted
        +:+ " (`" +:+ pluginPrefix +:+ "/" +:+ name +:+ "`)")
  else if String.eqb ruleDocTitleFormatWithFallback "name" then
    Ok ("# `" +:+ name +:+ "`")
  else if String.eqb ruleDocTitleFormatWithFallback "prefix-name" then
    Ok ("# `" +:+ pluginPrefix +:+ "/" +:+ name +:+ "`")
  else
    Throw ("Unhandled rule doc title format: "
           +:+ ruleDocTitleFormatWithFallback).

(** [generateRuleHeaderLines]: the new header, marker included, as
    one string. *)
Definition generateRuleHeaderLines (description : option string)
    (name : string) (plugin : Plugin Schema)
    (configsToRules : ConfigsToRules) (pluginPrefix : string)
    (ignoreConfig : option Includable)
    (ruleDocTitleFormat : option string) (urlConfigs : option string)
    : Result string :=
  let* title := makeTitle name description pluginPrefix ruleDocTitleFormat in
  let* noticeLines :=
    getRuleNoticeLines name plugin configsToRules pluginPrefix
      ignoreConfig urlConfigs in
  Ok (Js.join (String "010" "")
        ([title] ++ noticeLines ++ [""; END_RULE_HEADER_MARKER])).

End WithExternals.

End RuleNotices.

(** ** [src/lib/generator.ts] *)

Module Generator.

(** What a run can touch: the files, what [console.error] printed (in
    order) and [process.exitCode]. *)
Record World := {
  files : gmap string string;
  stderr : list string;
  exitCode : option Z;
}.

Definition consoleError (message : string) (w : World) : World :=
  {| files := files w; stderr := stderr w ++ [message];
     exitCode := exitCode w |}.

Definition setExitCode (code : Z) (w : World) : World :=
  {| files := files w; stderr := stderr w; exitCode := Some code |}.

Definition existsSync (p : string) (w : World) : bool :=
  bool_decide (is_Some (files w !! p)).

Definition readFileSync (p : string) (w : World) : string :=
  default "" (files w !! p).

(** [writeFileSync(p, data)].  The data must be a string: with
    [undefined] the call throws a [TypeError] and writes nothing. *)
Definition writeFileSync (p : string) (data : option string) (w : World)
    : Result World :=
  match data with
  | Some contents =>
      Ok {| files := <[p := contents]> (files w); stderr := stderr w;
            exitCode := exitCode w |}
  | None =>
      Throw
        ("The " +:+ String "034" "data" +:+ String "034" " argument must be"
         +:+ " of type string or an instance of Buffer, TypedArray, or"
         +:+ " DataView. Received undefined")
  end.

(** How a run, or a part of one, ends: it returns, or an error
    propagates out of it. *)
Inductive Outcome :=
| Completed (w : World)
| Aborted (message : string) (w : World).

(** Statements in sequence. *)
Definition andThen (o : Outcome) (k : World -> Outcome) : Outcome :=
  match o with
  | Completed w => k w
  | Aborted message w => Aborted message w
  end.

(** [for (const x of items) body] *)
Fixpoint forOf {A} (items : list A) (body : A -> World -> Outcome)
    (w : World) : Outcome :=
  match items with
  | [] => Completed w
  | x :: items' => andThen (body x w) (forOf items' body)
  end.

(** The [options] of [generate]; an absent property is [None]. *)
Record Options := {
  ruleDocSectionInclude : option (list string);
  ruleDocSectionExclude : option (list string);
  ruleDocTitleFormat : option string;
  urlConfigs : option string;
}.

(** [options?.prop] *)
Definition opt {A} (options : option Options) (prop : Options -> option A)
    : option A :=
  options ≫= prop.

(** [expectContent(ruleName, contents, content, expected)] *)
Definition expectContent (ruleName contents content : string)
    (expected : bool) (w : World) : World :=
  if negb (eqb (Js.includes contents content) expected) then
    setExitCode 1
      (consoleError
         ("`" +:+ ruleName +:+ "` rule doc should "
          +:+ (if expected then "" else "not ")
          +:+ "have included: " +:+ content) w)
  else w.

Section WithExternals.

Context `{Externals}.

(** [possibleHeaders.some((header) => findSectionHeader(contents,
    header))]: the headers are tried in order, up to the first one for
    which a heading is found. *)
Fixpoint someSectionHeader (contents : string)
    (possibleHeaders : list string) : Result bool :=
  match possibleHeaders with
  | [] => Ok false
  | header :: possibleHeaders' =>
      let* section := Markdown.findSectionHeader contents header in
      if Js.truthy_opt section then Ok true
      else someSectionHeader contents possibleHeaders'
  end.

(** [expectSectionHeader(ruleName, contents, possibleHeaders, expected)] *)
Definition expectSectionHeader (ruleName contents : string)
    (possibleHeaders : list string) (expected : bool) (w : World)
    : Outcome :=
  match someSectionHeader contents possibleHeaders with
  | Throw message => Aborted message w
  | Ok found =>
      if negb (eqb found expected) then
        Completed
          (setExitCode 1
             (consoleError
                (if (1 <? Z.of_nat (length possibleHeaders)) then
                   "`" +:+ ruleName +:+ "` rule doc should "
                   +:+ (if expected then "" else "not ")
                   +:+ "have included "
                   +:+ (if expected then "one" else "any")
                   +:+ " of these headers: "
                   +:+ Js.join ", " possibleHeaders
                 else
                   "`" +:+ ruleName +:+ "` rule doc should "
                   +:+ (if expected then "" else "not ")
                   +:+ "have included the header: "
                   +:+ Js.join ", " possibleHeaders) w))
      else Completed w
  end.

(** The callback of [Object.entries(plugin.rules).map]. *)
Definition gatherDetails (entry : string * RuleModule Schema)
    : RuleDetails Schema :=
  let '(name, rule) := entry in
  match rule with
  | RuleObject meta =>
      {| rd_name := name;
         rd_description := docs meta ≫= description;
         rd_fixable :=
           match fixable meta with
           | Some f =>
               if Js.truthy f
               then Js.arr_includes ["code"; "whitespace"] f
               else false
           | None => false
           end;
         rd_hasSuggestions := default false (hasSuggestions meta);
         rd_requiresTypeChecking :=
           default false (docs meta ≫= requiresTypeChecking);
         rd_deprecated := default false (deprecated meta);
         rd_schema := schema meta |}
  | RuleFunction =>
      {| rd_name := name;
         rd_description := None;
         rd_fixable := false;
         rd_hasSuggestions := false;
         rd_requiresTypeChecking := false;
         rd_deprecated := false;
         rd_schema := emptyArraySchema |}
  end.

Definition pathToDocOf (path name : string) : string :=
  path_join [path_resolve path "docs"; "rules"; name +:+ ".md"].

(** The call [generateRuleHeaderLines(description, name, plugin,
    configsToRules, pluginPrefix, options?.ruleDocTitleFormat,
    options?.urlConfigs)] of [generate]: seven arguments, bound in
    order to the first seven of the eight parameters. *)
Definition newHeaderLinesOf (options : option Options)
    (plugin : Plugin Schema) (configsToRules : ConfigsToRules)
    (pluginPrefix : string) (d : RuleDetails Schema) : Result string :=
  RuleNotices.generateRuleHeaderLines (rd_description d) (rd_name d)
    plugin configsToRules pluginPrefix
    (IncString <$> opt options ruleDocTitleFormat)
    (opt options urlConfigs)
    None.

(** The checks [generate] runs on the contents of one rule doc (lines
    155 to 176). *)
Definition checkRequiredSections (options : option Options)
    (name contents : string) (w : World) : Outcome :=
  forOf (default [] (opt options ruleDocSectionInclude))
    (fun section w => expectSectionHeader name contents [section] true w) w.

Definition checkDisallowedSections (options : option Options)
    (name contents : string) (w : World) : Outcome :=
  forOf (default [] (opt options ruleDocSectionExclude))
    (fun section w => expectSectionHeader name contents [section] false w)
    w.

Definition checkOptionsSection (name contents : string)
    (schema : Schema) (w : World) : Outcome :=
  andThen
    (expectSectionHeader name contents ["Options"; "Config"]
       (hasOptions schema) w)
    (fun w =>
       Completed
         (foldl
            (fun w namedOption =>
               expectContent name contents namedOption true w)
            w (getAllNamedOptions schema))).

Definition checkRuleDoc (options : option Options) (name contents : string)
    (schema : Schema) (w : World) : Outcome :=
  andThen (checkRequiredSections options name contents w) (fun w =>
  andThen (checkDisallowedSections options name contents w) (fun w =>
  checkOptionsSection name contents schema w)).

(** The body of the loop [for (const { name, description, schema,
    deprecated } of details)] for a rule whose doc file exists.  The
    header merge is called on the text of the doc and the new header
    text, both strings. *)
Definition updateRuleDoc (options : option Options)
    (plugin : Plugin Schema) (configsToRules : ConfigsToRules)
    (pluginPrefix : string) (d : RuleDetails Schema) (pathToDoc : string)
    (w : World) : Outcome :=
  match newHeaderLinesOf options plugin configsToRules pluginPrefix d with
  | Throw message => Aborted message w
  | Ok newHeaderLines =>
      let contents := readFileSync pathToDoc w in
      match Markdown.replaceOrCreateHeaderOnStrings contents newHeaderLines
              END_RULE_HEADER_MARKER with
      | Throw message => Aborted message w
      | Ok contentsNew =>
          match writeFileSync pathToDoc contentsNew w with
          | Throw message => Aborted message w
          | Ok w => checkRuleDoc options (rd_name d) contents (rd_schema d) w
          end
      end
  end.

(** The loop over the rules. *)
Fixpoint updateRuleDocs (path : string) (options : option Options)
    (plugin : Plugin Schema) (configsToRules : ConfigsToRules)
    (pluginPrefix : string) (details : list (RuleDetails Schema))
    (w : World) : Outcome :=
  match details with
  | [] => Completed w
  | d :: details' =>
      let pathToDoc := pathToDocOf path (rd_name d) in
      if negb (existsSync pathToDoc w) then
        if rd_deprecated d then
          updateRuleDocs path options plugin configsToRules pluginPrefix
            details' w
        else
          Aborted
            ("Could not find rule doc: "
             +:+ path_relative (getPluginRoot path) pathToDoc) w
      else
        andThen
          (updateRuleDoc options plugin configsToRules pluginPrefix d
             pathToDoc w)
          (updateRuleDocs path options plugin configsToRules pluginPrefix
             details')
  end.

(** [generate(path, options)] *)
Definition generate (path : string) (options : option Options)
    (w : World) : Outcome :=
  let plugin := loadPlugin path in
  let pluginPrefix := getPluginPrefix path in
  let configsToRules := resolveConfigsToRules plugin in
  let readme := path_resolve path "README.md" in
  match rules plugin with
  | None =>
      Aborted "Could not find exported `rules` object in ESLint plugin." w
  | Some entries =>
      let details := map gatherDetails entries in
      andThen
        (updateRuleDocs path options plugin configsToRules pluginPrefix
           details w)
        (fun w =>
           if negb (existsSync readme w) then
             Aborted
               ("Could not find README: "
                +:+ path_relative (getPluginRoot path) readme) w
           else
             match
               writeFileSync readme
                 (Some
                    (updateRulesList details (readFileSync readme w) plugin
                       configsToRules pluginPrefix readme
                       (opt options urlConfigs))) w
             with
             | Ok w => Completed w
             | Throw message => Aborted message w
             end)
  end.

End WithExternals.

End Generator.

(** ** A small plugin on which the definitions are run *)

Module Sample.

(** Sample values for the constants and helpers of [Externals]: a schema
    stands for the option names it declares, a config maps to the rules
    it enables, paths are joined with [/], the formatter returns its
    input, and the sample platform takes no pattern beyond the embedded
    syntax. *)
Definition SampleConfigs : Type := list (string * list string).

Definition ruleNoFoo : RuleModule (list string) :=
  RuleObject
    {| docs := Some {| description := Some "disallow using FOO.";
                       requiresTypeChecking := None |};
       fixable := Some "other";
       hasSuggestions := None;
       deprecated := None;
       replacedBy := None;
       schema := ["allowList"] |}.

Definition ruleNoBar : RuleModule (list string) :=
  RuleObject
    {| docs := None;
       fixable := None;
       hasSuggestions := None;
       deprecated := Some true;
       replacedBy := Some ["no-foo"];
       schema := [] |}.

Definition ruleNoBaz : RuleModule (list string) :=
  RuleObject
    {| docs := Some {| description := Some "disallow baz";
                       requiresTypeChecking := None |};
       fixable := Some "code";
       hasSuggestions := None;
       deprecated := None;
       replacedBy := None;
       schema := [] |}.

Definition plugin : Plugin (list string) :=
  {| rules := Some [("no-foo", ruleNoFoo); ("no-bar", ruleNoBar);
                    ("no-baz", ruleNoBaz)] |}.

Definition configs : SampleConfigs :=
  [("recommended", ["test/no-foo"])].

#[export] Instance externals : Externals := {|
  Schema := list string;
  ConfigsToRules := SampleConfigs;
  EMOJI_DEPRECATED := "(x)";
  EMOJI_FIXABLE := "(fix)";
  EMOJI_HAS_SUGGESTIONS := "(idea)";
  EMOJI_CONFIGS := "(configs)";
  EMOJI_CONFIG_RECOMMENDED := "(ok)";
  END_RULE_HEADER_MARKER := "<!-- end rule header -->";
  RULE_DOC_TITLE_FORMAT_DEFAULT := "desc-parens-prefix-name";
  getConfigsForRule := fun ruleName configsToRules pluginPrefix =>
    map fst
      (List.filter
         (fun c => Js.arr_includes (snd c) (pluginPrefix +:+ "/" +:+ ruleName))
         configsToRules);
  configNamesToList := fun names =>
    Js.join ", " (map (fun n => "`" +:+ n +:+ "`") names);
  emptyArraySchema := [];
  hasOptions := fun s => negb (bool_decide (s = []));
  getAllNamedOptions := fun s => s;
  loadPlugin := fun _ => plugin;
  getPluginPrefix := fun _ => "test";
  getPluginRoot := fun path => path;
  resolveConfigsToRules := fun _ => configs;
  path_resolve := fun a b => a +:+ "/" +:+ b;
  path_join := Js.join "/";
  path_relative := fun _ to => to;
  format := fun s _ => s;
  updateRulesList := fun _ readme _ _ _ _ _ => readme;
  hostRegExp := fun source =>
    Throw ("Invalid regular expression: /" +:+ source +:+ "/gi");
|}.

Definition nl : string := String "010" "".

(** A plugin directory with docs for [no-foo] and [no-baz], none for the
    deprecated [no-bar], and a README. *)
Definition world : Generator.World :=
  {| Generator.files :=
       list_to_map
         [("p/docs/rules/no-foo.md",
           "# old title" +:+ nl +:+ nl +:+ "Some text." +:+ nl);
          ("p/docs/rules/no-baz.md", "Some text about baz." +:+ nl);
          ("p/README.md", "# plugin" +:+ nl)];
     Generator.stderr := [];
     Generator.exitCode := None |}.


Definition detailsNoFoo : RuleDetails (list string) :=
  Generator.gatherDetails ("no-foo", ruleNoFoo).
Definition detailsNoBar : RuleDetails (list string) :=
  Generator.gatherDetails ("no-bar", ruleNoBar).
Definition detailsNoBaz : RuleDetails (list string) :=
  Generator.gatherDetails ("no-baz", ruleNoBaz).

Definition optionsWith (titleFormat : string) (url : option string)
    : option Generator.Options :=
  Some {| Generator.ruleDocSectionInclude := None;
          Generator.ruleDocSectionExclude := None;
          Generator.ruleDocTitleFormat := Some titleFormat;
          Generator.urlConfigs := url |}.

(** Options that require a [Usage] section and forbid an [Examples]
    section. *)
Definition optionsSections : option Generator.Options :=
  Some {| Generator.ruleDocSectionInclude := Some ["Usage"];
          Generator.ruleDocSectionExclude := Some ["Examples"];
          Generator.ruleDocTitleFormat := None;
          Generator.urlConfigs := None |}.

(** A plugin directory with a README and no rule docs. *)
Definition worldNoDocs : Generator.World :=
  {| Generator.files := list_to_map [("p/README.md", "# plugin" +:+ nl)];
     Generator.stderr := [];
     Generator.exitCode := None |}.

(** The text of a rule doc with no section heading and no mention of an
    option. *)
Definition plainDoc : string :=
  "# no-foo" +:+ nl +:+ nl +:+ "Some text." +:+ nl.

End Sample.

(** ** A plugin with a function-style rule *)

Module LegacySample.

(** A plugin whose first rule is in the function-style format. *)
Definition plugin : Plugin (list string) :=
  {| rules := Some [("old-rule", RuleFunction);
                    ("no-baz", Sample.ruleNoBaz)] |}.

(** The sample values, with that plugin loaded. *)
Definition externals : Externals := {|
  Schema := list string;
  ConfigsToRules := Sample.SampleConfigs;
  EMOJI_DEPRECATED := "(x)";
  EMOJI_FIXABLE := "(fix)";
  EMOJI_HAS_SUGGESTIONS := "(idea)";
  EMOJI_CONFIGS := "(configs)";
  EMOJI_CONFIG_RECOMMENDED := "(ok)";
  END_RULE_HEADER_MARKER := "<!-- end rule header -->";
  RULE_DOC_TITLE_FORMAT_DEFAULT := "desc-parens-prefix-name";
  getConfigsForRule := @getConfigsForRule Sample.externals;
  configNamesToList := @configNamesToList Sample.externals;
  emptyArraySchema := [];
  hasOptions := @hasOptions Sample.externals;
  getAllNamedOptions := @getAllNamedOptions Sample.externals;
  loadPlugin := fun _ => plugin;
  getPluginPrefix := fun _ => "test";
  getPluginRoot := fun path => path;
  resolveConfigsToRules := fun _ => Sample.configs;
  path_resolve := @path_resolve Sample.externals;
  path_join := @path_join Sample.externals;
  path_relative := @path_relative Sample.externals;
  format := @format Sample.externals;
  updateRulesList := fun _ readme _ _ _ _ _ => readme;
  hostRegExp := fun source =>
    Throw ("Invalid regular expression: /" +:+ source +:+ "/gi");
|}.

End LegacySample.

(** ** A plugin whose first rule is deprecated and has no doc *)

Module DeprecatedSample.

Definition plugin : Plugin (list string) :=
  {| rules := Some [("no-bar", Sample.ruleNoBar);
                    ("no-baz", Sample.ruleNoBaz);
                    ("no-foo", Sample.ruleNoFoo)] |}.

(** The sample values, with that plugin loaded. *)
Definition externals : Externals := {|
  Schema := list string;
  ConfigsToRules := Sample.SampleConfigs;
  EMOJI_DEPRECATED := "(x)";
  EMOJI_FIXABLE := "(fix)";
  EMOJI_HAS_SUGGESTIONS := "(idea)";
  EMOJI_CONFIGS := "(configs)";
  EMOJI_CONFIG_RECOMMENDED := "(ok)";
  END_RULE_HEADER_MARKER := "<!-- end rule header -->";
  RULE_DOC_TITLE_FORMAT_DEFAULT := "desc-parens-prefix-name";
  getConfigsForRule := @getConfigsForRule Sample.externals;
  configNamesToList := @configNamesToList Sample.externals;
  emptyArraySchema := [];
  hasOptions := @hasOptions Sample.externals;
  getAllNamedOptions := @getAllNamedOptions Sample.externals;
  loadPlugin := fun _ => plugin;
  getPluginPrefix := fun _ => "test";
  getPluginRoot := fun path => path;
  resolveConfigsToRules := fun _ => Sample.configs;
  path_resolve := @path_resolve Sample.externals;
  path_join := @path_join Sample.externals;
  path_relative := @path_relative Sample.externals;
  format := @format Sample.externals;
  updateRulesList := fun _ readme _ _ _ _ _ =>
    readme +:+ "rules" +:+ Sample.nl;
  hostRegExp := @hostRegExp Sample.externals;
|}.

(** A plugin with that deprecated rule only. *)
Definition pluginOnlyDeprecated : Plugin (list string) :=
  {| rules := Some [("no-bar", Sample.ruleNoBar)] |}.

Definition externalsOnlyDeprecated : Externals := {|
  Schema := list string;
  ConfigsToRules := Sample.SampleConfigs;
  EMOJI_DEPRECATED := "(x)";
  EMOJI_FIXABLE := "(fix)";
  EMOJI_HAS_SUGGESTIONS := "(idea)";
  EMOJI_CONFIGS := "(configs)";
  EMOJI_CONFIG_RECOMMENDED := "(ok)";
  END_RULE_HEADER_MARKER := "<!-- end rule header -->";
  RULE_DOC_TITLE_FORMAT_DEFAULT := "desc-parens-prefix-name";
  getConfigsForRule := @getConfigsForRule Sample.externals;
  configNamesToList := @configNamesToList Sample.externals;
  emptyArraySchema := [];
  hasOptions := @hasOptions Sample.externals;
  getAllNamedOptions := @getAllNamedOptions Sample.externals;
  loadPlugin := fun _ => pluginOnlyDeprecated;
  getPluginPrefix := fun _ => "test";
  getPluginRoot := fun path => path;
  resolveConfigsToRules := fun _ => Sample.configs;
  path_resolve := @path_resolve Sample.externals;
  path_join := @path_join Sample.externals;
  path_relative := @path_relative Sample.externals;
  format := @format Sample.externals;
  updateRulesList := fun _ readme _ _ _ _ _ =>
    readme +:+ "rules" +:+ Sample.nl;
  hostRegExp := @hostRegExp Sample.externals;
|}.

End DeprecatedSample.

(** ** Vocabulary of the statements *)

(** The first element of an array is no longer than any other, in
    UTF-16 code units. *)
Definition headShortest (arr : list string) : Prop :=
  match arr with
  | [] => True
  | m :: _ =>
      forall m', m' ∈ arr -> (Js.stringLength m <= Js.stringLength m')%nat
  end.

(** From [w] to [w'] exactly [n] diagnostics were reported: the files are
    the same, [n] lines were added to the error output, and the exit code
    is [1] when [n] is not zero and unchanged otherwise. *)
Definition emits (w w' : Generator.World) (n : nat) : Prop :=
  Generator.files w' = Generator.files w /\
  (exists diags,
     Generator.stderr w' = Generator.stderr w ++ diags /\ length diags = n) /\
  Generator.exitCode w' =
  match n with
  | O => Generator.exitCode w
  | S _ => Some 1
  end.

(** A part of a run that returned, from the world [w], having reported
    [n] diagnostics. *)
Definition completes (o : Generator.Outcome) (w : Generator.World)
    (n : nat) : Prop :=
  exists w', o = Generator.Completed w' /\ emits w w' n.

(** A run that ends, by returning or by throwing, and the world it
    leaves. *)
Definition endsIn (o : Generator.Outcome) (w' : Generator.World) : Prop :=
  o = Generator.Completed w' \/
  exists message, o = Generator.Aborted message w'.

(** The pattern of a phrase is written in the embedded syntax. *)
Definition embeddedPhrase (str : string) : Prop :=
  Markdown.anyChar Markdown.outsideFragment (Markdown.sectionSource str)
  = false.

(** [new RegExp] throws on the pattern of a phrase (a [SyntaxError]),
    or returns a pattern for it. *)
Definition invalidPhrase `{Externals} (str : string) : Prop :=
  exists message,
    Markdown.newRegExp (Markdown.sectionSource str) = Throw message.

Definition validPhrase `{Externals} (str : string) : Prop :=
  exists regexp,
    Markdown.newRegExp (Markdown.sectionSource str) = Ok regexp.

(** A heading is found for a phrase: the locator returns a truthy
    string (the callback of [some] in [expectSectionHeader]). *)
Definition sectionFound `{Externals} (contents str : string) : bool :=
  match Markdown.findSectionHeader contents str with
  | Ok section => Js.truthy_opt section
  | Throw _ => false
  end.

(** Every match a continuation gives is related by [P] to the text it
    was given. *)
Definition sound (P : string -> string -> Prop)
    (k : Markdown.Continuation) : Prop :=
  forall s m, k s = Some m -> P s m.

(** Two terms with the same quantifier whose atoms match the same
    texts. *)
Definition sameStep (t1 t2 : Markdown.Term) : Prop :=
  snd t1 = snd t2 /\
  forall s, Markdown.stepAtom (fst t1) s = Markdown.stepAtom (fst t2) s.

(** The five title formats [makeTitle] has a case for. *)
Definition titleFormats : list string :=
  ["desc"; "desc-parens-name"; "desc-parens-prefix-name"; "name";
   "prefix-name"].

(** ** Facts about the primitives *)

Section IndexOfFacts.

Lemma indexOf_ge (arr : list string) (x : string) : -1 <= Js.indexOf arr x.
Proof.
  induction arr as [|y arr IH]; simpl; [lia|].
  destruct (String.eqb y x); [lia|].
  destruct (Z.eqb_spec (Js.indexOf arr x) (-1)); lia.
Qed.

Lemma indexOf_absent (arr : list string) (x : string) :
  Js.indexOf arr x = -1 <-> x ∉ arr.
Proof.
  induction arr as [|y arr IH]; simpl.
  - split; [intros _; apply not_elem_of_nil | done].
  - destruct (String.eqb_spec y x) as [->|Hne].
    + split; [lia | intros H; exfalso; apply H; left].
    + pose proof (indexOf_ge arr x).
      destruct (Z.eqb_spec (Js.indexOf arr x) (-1)) as [He|He].
      * split; [|done]. intros _ Hin.
        apply elem_of_cons in Hin as [->|Hin]; [done|].
        by apply IH in Hin.
      * split; [lia|]. intros Hn. exfalso. apply He, IH.
        intros Hin. apply Hn. by right.
Qed.

(** When the first occurrence is at the end of a prefix that is free of
    [x], [indexOf] is the length of that prefix. *)
Lemma indexOf_app_first (pre post : list string) (x : string) :
  x ∉ pre -> Js.indexOf (pre ++ x :: post) x = Z.of_nat (length pre).
Proof.
  induction pre as [|y pre IH]; intros Hn; simpl.
  - by rewrite String.eqb_refl.
  - destruct (String.eqb_spec y x) as [->|Hne].
    + exfalso. apply Hn. left.
    + rewrite IH by (intros Hin; apply Hn; by right).
      destruct (Z.eqb_spec (Z.of_nat (length pre)) (-1)); lia.
Qed.

(** A present element splits the array at its first occurrence. *)
Lemma indexOf_split (arr : list string) (x : string) :
  Js.indexOf arr x <> -1 ->
  exists pre post,
    arr = pre ++ x :: post /\ (x ∉ pre) /\
    Js.indexOf arr x = Z.of_nat (length pre).
Proof.
  induction arr as [|y arr IH]; simpl; [done|].
  destruct (String.eqb_spec y x) as [->|Hne].
  - intros _. exists [], arr. repeat split. apply not_elem_of_nil.
  - destruct (Z.eqb_spec (Js.indexOf arr x) (-1)) as [He|He]; [done|].
    intros _. destruct (IH He) as (pre & post & -> & Hn & Hi).
    exists (y :: pre), post. repeat split.
    + intros Hin. apply elem_of_cons in Hin as [->|Hin]; done.
    + rewrite Hi. simpl length. lia.
Qed.

End IndexOfFacts.

(** ** The header merge *)

Section HeaderMerge.

Import Markdown.

Implicit Types lines header newHeaderLines : list string.
Implicit Types marker : string.

(** Without a marker in the document the header is put in front of it,
    after a leading title line was dropped. *)
Lemma merge_without_marker lines newHeaderLines marker :
  marker ∉ lines ->
  replaceOrCreateHeader lines newHeaderLines marker =
  newHeaderLines ++
    match lines with
    | l0 :: rest => if Js.startsWith l0 "# " then rest else lines
    | [] => []
    end.
Proof.
  intros Hn. apply indexOf_absent in Hn.
  unfold replaceOrCreateHeader. rewrite Hn. simpl.
  destruct lines as [|l0 rest]; [done|].
  replace (0 <? Z.of_nat (length (l0 :: rest))) with true
    by (symmetry; apply Z.ltb_lt; simpl length; lia).
  simpl. by destruct (Js.startsWith l0 "# ").
Qed.

(** With a marker, everything up to its first occurrence is replaced. *)
Lemma merge_with_marker pre post newHeaderLines marker :
  marker ∉ pre ->
  replaceOrCreateHeader (pre ++ marker :: post) newHeaderLines marker =
  newHeaderLines ++ post.
Proof.
  intros Hn. unfold replaceOrCreateHeader.
  rewrite (indexOf_app_first pre post marker Hn).
  replace (Z.of_nat (length pre) =? -1) with false
    by (symmetry; apply Z.eqb_neq; lia).
  simpl. unfold Js.splice0. f_equal.
  replace (Z.to_nat (Z.max 0 (Z.of_nat (length pre) + 1)))
    with (length pre + 1)%nat by lia.
  rewrite (cons_middle marker pre post), app_assoc.
  rewrite drop_app_length'; [done|].
  rewrite length_app. simpl. lia.
Qed.

(** The merged document always starts with the new header. *)
Lemma merge_starts_with_header lines newHeaderLines marker :
  exists body,
    replaceOrCreateHeader lines newHeaderLines marker = newHeaderLines ++ body.
Proof. unfold replaceOrCreateHeader, Js.splice0. eauto. Qed.

Lemma count_occ_absent lines marker :
  marker ∉ lines -> count_occ string_dec lines marker = 0%nat.
Proof.
  intros Hn. apply count_occ_not_In. by rewrite <- list_elem_of_In.
Qed.

(** C1.  Header merge is idempotent: when the new header ends with the
    marker and none of its other lines is the marker, merging it into
    any document and then merging it again yields the document of the
    first merge. *)
Theorem replaceOrCreateHeader_idempotent lines header marker :
  marker ∉ header ->
  replaceOrCreateHeader
    (replaceOrCreateHeader lines (header ++ [marker]) marker)
    (header ++ [marker]) marker =
  replaceOrCreateHeader lines (header ++ [marker]) marker.
Proof.
  intros Hn.
  destruct (merge_starts_with_header lines (header ++ [marker]) marker)
    as [body ->].
  rewrite <- (app_assoc header [marker] body). simpl.
  rewrite (merge_with_marker header body _ marker Hn).
  by rewrite <- app_assoc.
Qed.

Lemma replaceOrCreateHeader_idempotent_witness :
  let header := ["# `test/no-foo`"; ""] in
  let marker := "<!-- end rule header -->" in
  let lines := ["# no-foo"; ""; "Old text."; marker; ""; "## Options"] in
  replaceOrCreateHeader
    (replaceOrCreateHeader lines (header ++ [marker]) marker)
    (header ++ [marker]) marker =
  replaceOrCreateHeader lines (header ++ [marker]) marker.
Proof.
  intros header marker lines.
  apply (replaceOrCreateHeader_idempotent lines header marker).
  intros Hin. repeat (apply elem_of_cons in Hin as [Hin|Hin]; [done|]).
  by apply elem_of_nil in Hin.
Defined.

(** C2, as stated, fails: a later marker line of the document is kept,
    so the merged document can hold the marker twice. *)
Lemma marker_invariant_counterexample :
  let marker := "<!-- end rule header -->" in
  count_occ string_dec
    (replaceOrCreateHeader [marker; "text"; marker] ["# title"; marker]
       marker)
    marker = 2%nat.
Proof. reflexivity. Qed.

(** C2, amended.  When the document holds the marker line at most once
    and the new header ends with the marker and has it nowhere else, the
    merged document holds the marker exactly once, as the last line of
    the new header region. *)
Theorem replaceOrCreateHeader_marker_once lines header marker :
  (count_occ string_dec lines marker <= 1)%nat ->
  marker ∉ header ->
  let merged := replaceOrCreateHeader lines (header ++ [marker]) marker in
  count_occ string_dec merged marker = 1%nat /\
  Js.indexOf merged marker = Z.of_nat (length (header ++ [marker])) - 1 /\
  take (length (header ++ [marker])) merged = header ++ [marker].
Proof.
  intros Hc Hn merged.
  assert (Hbody : exists body,
             merged = (header ++ [marker]) ++ body /\ marker ∉ body).
  { subst merged.
    destruct (Z.eq_dec (Js.indexOf lines marker) (-1)) as [He|He].
    - apply indexOf_absent in He.
      rewrite merge_without_marker by done.
      eexists; split; [done|].
      destruct lines as [|l0 rest]; [apply not_elem_of_nil|].
      destruct (Js.startsWith l0 "# "); [|done].
      intros Hin. apply He. by right.
    - destruct (indexOf_split lines marker He)
        as (pre & post & -> & Hpre & _).
      rewrite merge_with_marker by done.
      exists post; split; [done|].
      intros Hin. rewrite count_occ_app in Hc. simpl in Hc.
      destruct (string_dec marker marker); [|done].
      apply list_elem_of_In, (count_occ_In string_dec) in Hin. lia. }
  destruct Hbody as (body & -> & Hb). repeat split.
  - rewrite !count_occ_app, (count_occ_absent header), (count_occ_absent body)
      by done.
    simpl. by destruct (string_dec marker marker).
  - rewrite <- app_assoc. simpl. rewrite indexOf_app_first by done.
    rewrite length_app. simpl. lia.
  - by rewrite take_app_length.
Qed.

Lemma replaceOrCreateHeader_marker_once_witness :
  let header := ["# `test/no-foo`"; ""] in
  let marker := "<!-- end rule header -->" in
  let lines := ["# no-foo"; ""; "Old text."; marker; ""; "## Options"] in
  let merged := replaceOrCreateHeader lines (header ++ [marker]) marker in
  count_occ string_dec merged marker = 1%nat /\
  Js.indexOf merged marker = Z.of_nat (length (header ++ [marker])) - 1 /\
  take (length (header ++ [marker])) merged = header ++ [marker].
Proof.
  intros header marker lines.
  apply (replaceOrCreateHeader_marker_once lines header marker).
  - vm_compute. lia.
  - intros Hin. repeat (apply elem_of_cons in Hin as [Hin|Hin]; [done|]).
    by apply elem_of_nil in Hin.
Defined.

(** C6.  Legacy-title removal: in a document without a marker line whose
    first line starts with [# ], the merge deletes that first line, puts
    the new header in front, and keeps every other line as it was and in
    order. *)
Theorem replaceOrCreateHeader_legacy_title
    (title : string) (rest newHeaderLines : list string) marker :
  marker ∉ title :: rest ->
  Js.startsWith title "# " = true ->
  replaceOrCreateHeader (title :: rest) newHeaderLines marker =
  newHeaderLines ++ rest.
Proof.
  intros Hn Ht. rewrite merge_without_marker by done.
  by rewrite Ht.
Qed.

Lemma replaceOrCreateHeader_legacy_title_witness :
  let marker := "<!-- end rule header -->" in
  replaceOrCreateHeader ["# no-foo"; ""; "  Old text. "; ""]
    ["# `test/no-foo`"; ""; marker] marker =
  ["# `test/no-foo`"; ""; marker] ++ [""; "  Old text. "; ""].
Proof.
  intros marker.
  apply (replaceOrCreateHeader_legacy_title "# no-foo").
  - intros Hin. repeat (apply elem_of_cons in Hin as [Hin|Hin]; [done|]).
    by apply elem_of_nil in Hin.
  - reflexivity.
Defined.

End HeaderMerge.

(** ** Strings: prefixes, substrings and joins *)

Section StringFacts.

Lemma prefix_empty (s : string) : String.prefix "" s = true.
Proof. by destruct s. Qed.

Lemma append_assoc (s1 s2 s3 : string) :
  (s1 +:+ s2) +:+ s3 = s1 +:+ (s2 +:+ s3).
Proof.
  induction s1 as [|c s1 IH]; [done|].
  change (String c ((s1 +:+ s2) +:+ s3) = String c (s1 +:+ (s2 +:+ s3))).
  by rewrite IH.
Qed.

Lemma append_empty_r (s : string) : s +:+ "" = s.
Proof.
  induction s as [|c s IH]; [done|].
  change (String c (s +:+ "") = String c s). by rewrite IH.
Qed.

Lemma prefix_split (p s : string) :
  String.prefix p s = true <-> exists post, s = p +:+ post.
Proof.
  revert s. induction p as [|a p IH]; intros s.
  - rewrite prefix_empty. split; [|done]. intros _. by exists s.
  - destruct s as [|c s].
    + split; [done|]. by intros [post [=]].
    + change (String.prefix (String a p) (String c s))
        with (if ascii_dec a c then String.prefix p s else false).
      destruct (ascii_dec a c) as [->|Hne].
      * rewrite IH. split; intros [post Hp]; exists post;
          [by rewrite Hp | by injection Hp].
      * split; [done|]. intros [post [=]]. done.
Qed.

(** [s.includes(t)] holds exactly when [s] is some text, then [t], then
    some text. *)
Lemma includes_split (s t : string) :
  Js.includes s t = true <-> exists pre post, s = pre +:+ t +:+ post.
Proof.
  split.
  - induction s as [|c s IH]; cbn [Js.includes].
    + rewrite orb_false_r. intros [post ->]%prefix_split. by exists "", post.
    + intros [Hp|Hi]%orb_true_iff.
      * apply prefix_split in Hp as [post ->]. by exists "", post.
      * destruct (IH Hi) as (pre & post & ->). by exists (String c pre), post.
  - intros (pre & post & ->). induction pre as [|c pre IH].
    + assert (Hp : String.prefix t ("" +:+ t +:+ post) = true)
        by (apply prefix_split; by exists post).
      change ("" +:+ t +:+ post) with (t +:+ post) in *.
      destruct (t +:+ post); cbn [Js.includes]; by rewrite Hp.
    + change (String c pre +:+ t +:+ post)
        with (String c (pre +:+ t +:+ post)).
      cbn [Js.includes]. rewrite IH. apply orb_true_r.
Qed.

Lemma startsWith_append (s p x : string) :
  Js.startsWith s p = true -> Js.startsWith (s +:+ x) p = true.
Proof.
  unfold Js.startsWith. intros [post ->]%prefix_split.
  apply prefix_split. exists (post +:+ x). apply append_assoc.
Qed.

(** Joining a non-empty array and one more element. *)
Lemma join_snoc (sep x : string) (arr : list string) :
  arr <> [] -> Js.join sep (arr ++ [x]) = Js.join sep arr +:+ sep +:+ x.
Proof.
  induction arr as [|a arr IH]; [done|]. intros _.
  destruct arr as [|b arr]; [done|].
  change (Js.join sep ((a :: b :: arr) ++ [x]))
    with (a +:+ sep +:+ Js.join sep ((b :: arr) ++ [x])).
  rewrite IH by done.
  change (Js.join sep (a :: b :: arr))
    with (a +:+ sep +:+ Js.join sep (b :: arr)).
  by rewrite !append_assoc.
Qed.

Lemma join_startsWith (sep a p : string) (arr : list string) :
  Js.startsWith a p = true -> Js.startsWith (Js.join sep (a :: arr)) p = true.
Proof.
  intros Ha. destruct arr as [|b arr]; [done|].
  change (Js.join sep (a :: b :: arr))
    with (a +:+ sep +:+ Js.join sep (b :: arr)).
  by apply startsWith_append.
Qed.

End StringFacts.

(** ** Rule lookup *)

Section RuleLookup.

Context {Schema : Type}.

(** An entry of [rules] is what the property access gives for its key. *)
Lemma ruleProperty_own (entries : list (string * RuleModule Schema))
    (ruleName : string) (rule : RuleModule Schema) :
  lookupRule entries ruleName = Some rule ->
  ruleProperty entries ruleName = Some (RuleValue rule).
Proof. unfold ruleProperty. by intros ->. Qed.

End RuleLookup.

(** ** The section locator *)

Section SectionLocator.

Import Markdown.

Context `{Externals}.

Implicit Types arr sorted matches : list string.

Lemma insertByLength_elem (a x : string) sorted :
  x ∈ insertByLength a sorted <-> x = a \/ x ∈ sorted.
Proof.
  induction sorted as [|b sorted IH]; simpl.
  - rewrite list_elem_of_singleton. split; [auto|].
    intros [?|Hin]; [done|]. by apply elem_of_nil in Hin.
  - destruct (_ <=? 0).
    + by rewrite elem_of_cons.
    + rewrite !elem_of_cons, IH. tauto.
Qed.

Lemma sortByLength_elem (x : string) arr :
  x ∈ sortByLength arr <-> x ∈ arr.
Proof.
  induction arr as [|a arr IH]; simpl; [done|].
  by rewrite insertByLength_elem, elem_of_cons, IH.
Qed.

Lemma insertByLength_headShortest (a : string) sorted :
  headShortest sorted -> headShortest (insertByLength a sorted).
Proof.
  destruct sorted as [|b sorted]; simpl.
  - intros _ m' Hin. apply list_elem_of_singleton in Hin as ->. lia.
  - intros Hb.
    destruct (Z.leb_spec
                (Z.of_nat (Js.stringLength a) - Z.of_nat (Js.stringLength b))
                0)
      as [Hle|Hgt]; simpl; intros m' Hin.
    + apply elem_of_cons in Hin as [->|Hin]; [lia|].
      specialize (Hb m' Hin). lia.
    + apply elem_of_cons in Hin as [->|Hin]; [lia|].
      apply insertByLength_elem in Hin as [->|Hin]; [lia|].
      apply Hb. by right.
Qed.

Lemma sortByLength_headShortest arr : headShortest (sortByLength arr).
Proof.
  induction arr as [|a arr IH]; simpl; [done|].
  by apply insertByLength_headShortest.
Qed.

Lemma sortByLength_length arr : length (sortByLength arr) = length arr.
Proof.
  induction arr as [|a arr IH]; simpl; [done|]. rewrite <- IH.
  generalize (sortByLength arr). intros sorted.
  induction sorted as [|b sorted IHs]; simpl; [done|].
  destruct (_ <=? 0); simpl; by rewrite ?IHs.
Qed.

(** The head of the sorted matches: a match of least length. *)
Lemma sortByLength_head arr :
  arr <> [] ->
  exists m,
    head (sortByLength arr) = Some m /\ m ∈ arr /\
    forall m', m' ∈ arr -> (Js.stringLength m <= Js.stringLength m')%nat.
Proof.
  intros Hne. pose proof (sortByLength_headShortest arr) as Hs.
  pose proof (sortByLength_length arr) as Hl.
  destruct (sortByLength arr) as [|m sorted] eqn:E.
  - destruct arr; [done|]. simpl in Hl. lia.
  - exists m. split; [done|]. split.
    + apply sortByLength_elem. rewrite E. left.
    + intros m' Hin. apply Hs. apply sortByLength_elem in Hin.
      by rewrite E in Hin.
Qed.

(** The choice among the matches, whatever pattern found them. *)
Lemma selectSectionHeader_result matches :
  (matches = [] -> selectSectionHeader matches = None) /\
  (forall m, matches = [m] -> selectSectionHeader matches = Some m) /\
  ((2 <= length matches)%nat ->
   exists m,
     selectSectionHeader matches = Some m /\ m ∈ matches /\
     forall m', m' ∈ matches ->
                (Js.stringLength m <= Js.stringLength m')%nat).
Proof.
  unfold selectSectionHeader. repeat split.
  - by intros ->.
  - by intros m ->.
  - intros Hlen.
    replace (Z.of_nat (length matches) =? 0) with false
      by (symmetry; apply Z.eqb_neq; lia).
    replace (Z.of_nat (length matches) =? 1) with false
      by (symmetry; apply Z.eqb_neq; lia).
    apply sortByLength_head. intros E. rewrite E in Hlen. simpl in Hlen. lia.
Qed.

Lemma selectSectionHeader_elem matches (m : string) :
  selectSectionHeader matches = Some m -> m ∈ matches.
Proof.
  unfold selectSectionHeader.
  destruct (Z.of_nat (length matches) =? 0); [done|].
  destruct (Z.of_nat (length matches) =? 1).
  - apply head_Some_elem_of.
  - intros Hh%head_Some_elem_of. by apply sortByLength_elem.
Qed.

Lemma selectSectionHeader_none matches :
  selectSectionHeader matches = None <-> matches = [].
Proof.
  split; [|by intros ->].
  destruct matches as [|m matches]; [done|]. intros Hn. exfalso.
  destruct matches as [|m' matches]; [done|].
  destruct (proj2 (proj2 (selectSectionHeader_result (m :: m' :: matches))))
    as (x & Hx & _); [simpl; lia|].
  congruence.
Qed.

(** What [findSectionHeader] does follows what [new RegExp] did. *)
Lemma findSectionHeader_returns (markdown str : string)
    (r : option string) :
  findSectionHeader markdown str = Ok r <->
  exists regexp,
    newRegExp (sectionSource str) = Ok regexp /\
    r = selectSectionHeader (matchAll regexp markdown).
Proof.
  unfold findSectionHeader.
  destruct (newRegExp (sectionSource str)) as [regexp|message];
    cbn [bindResult].
  - split; [intros [= <-]; eauto|]. by intros (? & [= <-] & ->).
  - split; [done|]. by intros (? & ? & _).
Qed.

Lemma findSectionHeader_throws (markdown str message : string) :
  findSectionHeader markdown str = Throw message <->
  newRegExp (sectionSource str) = Throw message.
Proof.
  unfold findSectionHeader.
  destruct (newRegExp (sectionSource str)) as [regexp|message'];
    cbn [bindResult]; [split; intros [=] | split; by intros [= ->]].
Qed.


(** The phrase [C++] has no pattern, whatever the platform: it is
    written in the embedded syntax, and its second [+] has nothing to
    repeat. *)
Lemma findSectionHeader_nothing_to_repeat (markdown : string) :
  findSectionHeader markdown "C++"
  = Throw
      ("Invalid regular expression: /" +:+ sectionSource "C++"
       +:+ "/gi: Nothing to repeat").
Proof. reflexivity. Qed.

End SectionLocator.

Section SectionLocatorRuns.

Import Markdown.



(** The tie-break scenario of the spec, run; and a tie-break between
    headings with characters outside ASCII, whose lengths are counted
    in UTF-16 code units: fifteen for the first, sixteen for the
    second. *)
Example findSectionHeader_tie_break :
  let nl := String "010" "" in
  findSectionHeader (H := Sample.externals)
    ("## More options here" +:+ nl +:+ "## Options" +:+ nl) "Options"
  = Ok (Some ("## Options" +:+ nl)) /\
  findSectionHeader (H := Sample.externals)
    ("## Options ééé" +:+ nl +:+ "## Options abcd" +:+ nl) "Options"
  = Ok (Some ("## Options ééé" +:+ nl)).
Proof. split; reflexivity. Qed.

(** The phrase is part of the pattern: its syntax characters keep
    their meaning. *)
Example findSectionHeader_phrase_is_pattern :
  let nl := String "010" "" in
  findSectionHeader (H := Sample.externals) ("## Option" +:+ nl) "Options?"
  = Ok (Some ("## Option" +:+ nl)) /\
  findSectionHeader (H := Sample.externals) ("## Options?" +:+ nl) "Options?"
  = Ok (Some ("## Options?" +:+ nl)) /\
  findSectionHeader (H := Sample.externals) ("## CCC" +:+ nl) "CC+"
  = Ok (Some ("## CCC" +:+ nl)) /\
  findSectionHeader (H := Sample.externals) ("## CC+" +:+ nl) "CC+C"
  = Ok None.
Proof. repeat split; reflexivity. Qed.

End SectionLocatorRuns.

Section MatchText.

Import Markdown.

(** *** The text of a match *)

Lemma canonicalize_hash (c : ascii) :
  canonicalize "#" = canonicalize c -> c = "#"%char.
Proof.
  destruct c as [[] [] [] [] [] [] [] []]; vm_compute; congruence.
Qed.

Lemma canonicalize_newline (c : ascii) :
  canonicalize "010" = canonicalize c -> c = "010"%char.
Proof.
  destruct c as [[] [] [] [] [] [] [] []]; vm_compute; congruence.
Qed.

Lemma take_drop_bytes (n : nat) (s : string) :
  s = Js.takeBytes n s +:+ Js.dropBytes n s.
Proof.
  revert s. induction n as [|n IH]; intros [|c s]; try done.
  cbn [Js.takeBytes Js.dropBytes].
  change (String c s = String c (Js.takeBytes n s +:+ Js.dropBytes n s)).
  by rewrite <- IH.
Qed.

(** An atom takes a piece off the front of the text. *)
Lemma stepAtom_split (a : Atom) (s u s' : string) :
  stepAtom a s = Some (u, s') -> s = u +:+ s'.
Proof.
  destruct a as [c|]; destruct s as [|d s]; cbn [stepAtom]; try done.
  - destruct (Ascii.eqb _ _); [|done]. by intros [= <- <-].
  - destruct (atLineTerminator _); [done|]. intros [= <- <-].
    apply take_drop_bytes.
Qed.

(** An atom takes at least one byte, so a repetition has at most as
    many steps as the text has bytes: the number of steps [matchTerm]
    allows is enough, and more steps change nothing. *)
Lemma dropBytes_length (n : nat) (s : string) :
  (String.length (Js.dropBytes n s) <= String.length s)%nat.
Proof.
  revert s. induction n as [|n IH]; intros [|c s]; simpl; try lia.
  specialize (IH s). lia.
Qed.

Lemma stepAtom_shorter (a : Atom) (s u s' : string) :
  stepAtom a s = Some (u, s') ->
  (String.length s' < String.length s)%nat.
Proof.
  destruct a as [c|]; destruct s as [|d s]; cbn [stepAtom]; try done.
  - destruct (Ascii.eqb _ _); [|done]. intros [= _ <-]. simpl. lia.
  - destruct (atLineTerminator _); [done|].
    assert (Hu : exists n, Js.unitBytes (String d s) = S n).
    { unfold Js.unitBytes.
      destruct (_ <? 128)%nat; [by eexists|].
      destruct (_ <? 224)%nat; [by eexists|].
      destruct (_ <? 240)%nat; by eexists. }
    destruct Hu as [n ->]. cbn [Js.dropBytes]. intros [= _ <-].
    pose proof (dropBytes_length n s). simpl. lia.
Qed.

Lemma matchRepeat_steps (a : Atom) (greedy : bool) (k : Continuation)
    (n m : nat) (s : string) :
  (String.length s <= n)%nat ->
  (String.length s <= m)%nat ->
  matchRepeat a greedy k n s = matchRepeat a greedy k m s.
Proof.
  assert (Hone : forall steps k',
             matchRepeat a greedy k (S steps) "" = k "" /\
             matchOne a k' "" = None).
  { intros steps k'. split; [|by destruct a].
    cbn [matchRepeat]. replace (matchOne a _ "") with (@None string)
      by (by destruct a).
    destruct greedy; [done|]. unfold orElse. by destruct (k ""). }
  revert m s. induction n as [|n IH]; intros m s Hn Hm.
  - destruct s; [|simpl in Hn; lia].
    destruct m; [done|]. symmetry. apply Hone. exact k.
  - destruct m as [|m].
    { destruct s; [|simpl in Hm; lia]. apply Hone. exact k. }
    cbn [matchRepeat].
    assert (Hmore : matchOne a (matchRepeat a greedy k n) s
                    = matchOne a (matchRepeat a greedy k m) s).
    { unfold matchOne.
      destruct (stepAtom a s) as [[u s']|] eqn:E; [|done].
      apply stepAtom_shorter in E. rewrite (IH m s'); [done|lia|lia]. }
    by rewrite Hmore.
Qed.

(** A property of the text a continuation matches, kept when a piece
    is put in front of it, is kept by every term. *)
Section Preserved.

Variable P : string -> string -> Prop.

Hypothesis P_step :
  forall a s u s' m, stepAtom a s = Some (u, s') -> P s' m -> P s (u +:+ m).

Lemma matchOne_sound (a : Atom) (k : Continuation) :
  sound P k -> sound P (matchOne a k).
Proof.
  intros Hk s m. unfold matchOne.
  destruct (stepAtom a s) as [[u s']|] eqn:E; [|done].
  destruct (k s') as [m'|] eqn:Ek; [|done].
  intros [= <-]. eauto.
Qed.

Lemma orElse_sound (k1 k2 : Continuation) :
  sound P k1 -> sound P k2 -> sound P (fun s => orElse (k1 s) (k2 s)).
Proof.
  intros H1 H2 s m. unfold orElse.
  destruct (k1 s) as [m1|] eqn:E1; [intros [= <-]; auto | auto].
Qed.

Lemma matchRepeat_sound (a : Atom) (greedy : bool) (k : Continuation)
    (steps : nat) :
  sound P k -> sound P (matchRepeat a greedy k steps).
Proof.
  intros Hk. induction steps as [|steps IH]; [exact Hk|].
  cbn [matchRepeat]. destruct greedy.
  - apply (orElse_sound (matchOne a (matchRepeat a true k steps)) k);
      [by apply matchOne_sound | done].
  - apply (orElse_sound k (matchOne a (matchRepeat a false k steps)));
      [done | by apply matchOne_sound].
Qed.

Lemma matchTerm_sound (t : Term) (k : Continuation) :
  sound P k -> sound P (matchTerm t k).
Proof.
  intros Hk. destruct t as [a [|greedy|greedy|greedy]]; unfold matchTerm.
  - by apply matchOne_sound.
  - intros s. by apply matchRepeat_sound.
  - apply matchOne_sound. intros s. by apply matchRepeat_sound.
  - destruct greedy.
    + apply (orElse_sound (matchOne a k) k); [by apply matchOne_sound|done].
    + apply (orElse_sound k (matchOne a k)); [done|by apply matchOne_sound].
Qed.

Lemma matchHere_sound (init terms : list Term) :
  sound P (matchHere terms) -> sound P (matchHere (init ++ terms)).
Proof.
  intros Hk. induction init as [|t init IH]; [done|].
  cbn [app matchHere]. by apply matchTerm_sound.
Qed.

End Preserved.

(** What [matchHere] returns is a prefix of the text it was tried on. *)
Lemma matchHere_prefix (terms : list Term) (s m : string) :
  matchHere terms s = Some m -> exists post, s = m +:+ post.
Proof.
  rewrite <- (app_nil_r terms).
  apply (matchHere_sound (fun s m => exists post, s = m +:+ post)).
  - intros a s0 u s' m0 Hstep [post ->]. exists post.
    rewrite append_assoc. by apply stepAtom_split in Hstep.
  - intros s0 m0 [= <-]. by exists s0.
Qed.

(** One pattern character matched: the text has a character that folds
    to the same. *)
Lemma matchOne_char (c : ascii) (k : Continuation) (s m : string) :
  matchOne (Char c) k s = Some m ->
  exists d s' m',
    s = String d s' /\ canonicalize c = canonicalize d /\
    k s' = Some m' /\ m = String d m'.
Proof.
  unfold matchOne. destruct s as [|d s]; cbn [stepAtom]; [done|].
  destruct (Ascii.eqb_spec (canonicalize c) (canonicalize d)) as [E|];
    [|done].
  destruct (k s) as [m'|] eqn:Ek; [|done].
  intros [= <-]. by exists d, s, m'.
Qed.

(** A match of a pattern that ends with a newline ends with a
    newline. *)
Lemma matchHere_ends (init : list Term) (s m : string) :
  matchHere (init ++ [(Char "010", Once)]) s = Some m ->
  exists m', m = m' +:+ String "010" "".
Proof.
  apply (matchHere_sound (fun _ m => exists m', m = m' +:+ String "010" "")).
  - intros a s0 u s' m0 _ [m' ->]. exists (u +:+ m').
    by rewrite append_assoc.
  - intros s0 m0. cbn [matchHere matchTerm].
    intros (d & s' & m' & -> & ->%canonicalize_newline & [= <-] & ->)
      %matchOne_char.
    by exists "".
Qed.

(** A match of a pattern that starts with [##] starts with [##]. *)
Lemma matchHere_starts (terms : list Term) (s m : string) :
  matchHere ((Char "#", Once) :: (Char "#", Once) :: terms) s = Some m ->
  exists m', m = "##" +:+ m'.
Proof.
  cbn [matchHere matchTerm].
  intros (d1 & s1 & m1 & -> & ->%canonicalize_hash & Hm1 & ->)%matchOne_char.
  apply matchOne_char in Hm1
    as (d2 & s2 & m2 & -> & ->%canonicalize_hash & _ & ->).
  by exists m2.
Qed.

(** Every match [matchAll] lists was found by [matchHere] at some place
    of the text. *)
Lemma matchAllFrom_found (terms : list Term) (skip : nat) (s m : string) :
  m ∈ matchAllFrom terms skip s ->
  exists pre rest, s = pre +:+ rest /\ matchHere terms rest = Some m.
Proof.
  revert skip. induction s as [|c s IH]; intros skip; cbn [matchAllFrom].
  - destruct skip; [|by intros ?%elem_of_nil].
    destruct (matchHere terms "") eqn:E; [|by intros ?%elem_of_nil].
    intros ->%list_elem_of_singleton. by exists "", "".
  - assert (Hs : forall n, m ∈ matchAllFrom terms n s ->
                           exists pre rest,
                             String c s = pre +:+ rest /\
                             matchHere terms rest = Some m).
    { intros n (pre & rest & -> & Hm)%IH. by exists (String c pre), rest. }
    destruct skip as [|n]; [|apply Hs].
    destruct (matchHere terms (String c s)) eqn:E; [|apply Hs].
    intros [->|Hin]%elem_of_cons; [|by apply Hs in Hin].
    by exists "", (String c s).
Qed.

(** *** The pattern of a phrase *)

Lemma append_cons (c : ascii) (s t : string) :
  String c s +:+ t = String c (s +:+ t).
Proof. reflexivity. Qed.

Lemma fmap_cons_last (t : Term) (parsed : option (list Term))
    (terms : list Term) :
  (forall terms', parsed = Some terms' ->
                  exists init, terms' = init ++ [(Char "010", Once)]) ->
  cons t <$> parsed = Some terms ->
  exists init, terms = init ++ [(Char "010", Once)].
Proof.
  intros IH. destruct parsed as [terms'|]; [|done].
  intros [= <-]. destruct (IH terms' eq_refl) as [init ->].
  by exists (t :: init).
Qed.

(** The last term of a pattern whose source ends with a newline is
    that newline. *)
Lemma parseTerms_last (n : nat) (source : string) (terms : list Term) :
  (String.length source <= n)%nat ->
  parseTerms (source +:+ String "010" "") = Some terms ->
  exists init, terms = init ++ [(Char "010", Once)].
Proof.
  revert source terms.
  induction n as [|n IH]; intros source terms Hlen.
  { destruct source; [|simpl in Hlen; lia].
    intros [= <-]. by exists []. }
  destruct source as [|c source].
  { intros [= <-]. by exists []. }
  rewrite append_cons. cbn [parseTerms].
  destruct (isQuantifierChar c); [done|].
  destruct source as [|q source].
  { change ("" +:+ String "010" "") with (String "010" "").
    cbn [isQuantifierChar Ascii.eqb Bool.eqb orb].
    apply fmap_cons_last. intros terms'.
    apply (IH "" terms'). simpl. lia. }
  rewrite append_cons.
  destruct (isQuantifierChar q).
  - destruct source as [|l source].
    { change ("" +:+ String "010" "") with (String "010" "").
      cbn [Ascii.eqb Bool.eqb]. apply fmap_cons_last. intros terms'.
      apply (IH "" terms'). simpl. lia. }
    rewrite append_cons. destruct (Ascii.eqb l "?").
    + apply fmap_cons_last. intros terms'. apply IH. simpl in Hlen. lia.
    + apply fmap_cons_last. intros terms'.
      rewrite <- append_cons. apply IH. simpl in Hlen |- *. lia.
  - apply fmap_cons_last. intros terms'.
    rewrite <- append_cons. apply IH. simpl in Hlen |- *. lia.
Qed.

Context `{Externals}.

(** The pattern of a phrase written in the embedded syntax starts with
    [##] and ends with a newline. *)
Lemma sectionPattern_shape (str : string) (regexp : RegExp) :
  embeddedPhrase str ->
  newRegExp (sectionSource str) = Ok regexp ->
  exists terms,
    regexp = Embedded terms /\
    (exists rest, terms = (Char "#", Once) :: (Char "#", Once) :: rest) /\
    (exists init, terms = init ++ [(Char "010", Once)]).
Proof.
  unfold embeddedPhrase, newRegExp. intros ->.
  destruct (parseTerms (sectionSource str)) as [parsed|] eqn:E; [|done].
  intros [= <-]. exists parsed. split; [done|]. split.
  - unfold sectionSource in E.
    change ("##.* " +:+ str +:+ ".*" +:+ String "010" "")
      with (String "#" (String "#" (".* " +:+ str +:+ ".*"
                                    +:+ String "010" ""))) in E.
    cbn [parseTerms isQuantifierChar Ascii.eqb Bool.eqb orb] in E.
    change (".* " +:+ str +:+ ".*" +:+ String "010" "")
      with (String "." (String "*" (" " +:+ str +:+ ".*"
                                    +:+ String "010" ""))) in E.
    cbv iota in E.
    destruct (parseTerms (String "." _)) as [rest|]; [|done].
    injection E as <-. by eexists.
  - apply (parseTerms_last (String.length ("##.* " +:+ str +:+ ".*"))
             ("##.* " +:+ str +:+ ".*")); [lia|].
    rewrite <- E. f_equal. unfold sectionSource.
    by rewrite !append_assoc.
Qed.

(** The matches of the pattern of such a phrase. *)
Lemma sectionMatch_shape (str : string) (regexp : RegExp)
    (markdown m : string) :
  embeddedPhrase str ->
  newRegExp (sectionSource str) = Ok regexp ->
  m ∈ matchAll regexp markdown ->
  (exists m', m = "##" +:+ m') /\
  (exists m', m = m' +:+ String "010" "") /\
  (exists pre post, markdown = pre +:+ m +:+ post).
Proof.
  intros Hemb Hre.
  destruct (sectionPattern_shape _ _ Hemb Hre)
    as (terms & -> & [rest Hs] & [init He]).
  cbn [matchAll]. intros (pre & text & -> & Hm)%matchAllFrom_found.
  split; [|split].
  - rewrite Hs in Hm. by apply matchHere_starts in Hm.
  - rewrite He in Hm. by apply matchHere_ends in Hm.
  - apply matchHere_prefix in Hm as [post ->]. by exists pre, post.
Qed.

(** A section that is found for such a phrase is a truthy string. *)
Lemma findSectionHeader_truthy (markdown str : string)
    (section : option string) :
  embeddedPhrase str ->
  findSectionHeader markdown str = Ok section ->
  Js.truthy_opt section = bool_decide (is_Some section).
Proof.
  intros Hemb (regexp & Hre & ->)%findSectionHeader_returns.
  destruct (selectSectionHeader _) as [m|] eqn:E; cbn [Js.truthy_opt].
  - apply selectSectionHeader_elem in E.
    destruct (sectionMatch_shape _ _ _ _ Hemb Hre E) as [[m' ->] _].
    by rewrite bool_decide_eq_true_2 by eauto.
  - rewrite bool_decide_eq_false_2; [done|]. by intros [? ?].
Qed.

End MatchText.

(** ** Notices and titles *)

Section NoticesAndTitles.

Import RuleNotices.

Context `{Externals}.

(** C3.  Notice exclusivity: the config-recommended notice applies
    exactly when the one enabling config is [recommended]; the configs
    notice applies exactly when there are several enabling configs, or
    one that is not [recommended]; the two never apply together. *)
Theorem notice_exclusivity (meta : RuleMeta Schema)
    (configsEnabled : list string) :
  let notices := getNoticesForRule meta configsEnabled in
  (n_configRecommended notices = true <->
   configsEnabled = ["recommended"]) /\
  (n_configs notices = true <->
   (1 < length configsEnabled)%nat \/
   exists config, configsEnabled = [config] /\ config <> "recommended") /\
  ~ (n_configs notices = true /\ n_configRecommended notices = true).
Proof.
  intros notices. subst notices. unfold getNoticesForRule.
  cbn [n_configs n_configRecommended].
  destruct configsEnabled as [|c [|c' rest]].
  - change (Z.of_nat (length (@nil string))) with 0. simpl.
    split; [done|]. split; [|by intros [? ?]].
    split; [done|]. intros [?|(? & ? & ?)]; [lia|done].
  - change (Z.of_nat (length [c])) with 1. cbn [head Z.ltb Z.eqb Z.compare
      Pos.compare Pos.compare_cont Pos.eqb orb andb].
    destruct (decide (c = "recommended")) as [->|Hne].
    + rewrite !bool_decide_eq_true_2 by done. simpl.
      split; [done|]. split; [|by intros [? ?]].
      split; [done|]. simpl. intros [?|(? & [= <-] & ?)]; [lia|done].
    + rewrite !bool_decide_eq_false_2 by congruence. simpl.
      split; [split; [done | by intros [= ->]]|].
      split; [|by intros [? ?]].
      split; [|done]. intros _. right. by exists c.
  - replace (1 <? Z.of_nat (length (c :: c' :: rest))) with true
      by (symmetry; apply Z.ltb_lt; simpl length; lia).
    replace (Z.of_nat (length (c :: c' :: rest)) =? 1) with false
      by (symmetry; apply Z.eqb_neq; simpl length; lia).
    simpl. split; [done|]. split; [|by intros [? ?]].
    split; [|done]. intros _. left. lia.
Qed.

(** What [toSentenceCase] does: the first character is upper-cased when
    it is a word character, and the rest of the string is returned as it
    came. *)
Lemma toSentenceCase_cons (c : ascii) (rest : string) :
  toSentenceCase (String c rest)
  = String (if isWordChar c then toUpperChar c else c) rest.
Proof. unfold toSentenceCase. by destruct (isWordChar c). Qed.

Lemma removeTrailingPeriod_period (str : string) :
  removeTrailingPeriod (str +:+ ".") = str.
Proof.
  induction str as [|c str IH]; [done|].
  change (String c str +:+ ".") with (String c (str +:+ ".")).
  cbn [removeTrailingPeriod]. rewrite IH.
  by destruct str.
Qed.

(** C5 (what the code does).  A description-based title keeps the case
    of every character after the first: [toSentenceCase] upper-cases
    the first character and strips the period, but [FOO] stays [FOO]. *)
Theorem makeTitle_keeps_case_after_first :
  makeTitle "no-foo" (Some "disallow using FOO.") "test" (Some "desc")
  = Ok "# Disallow using FOO" /\
  toSentenceCase "disallow using FOO." = "Disallow using FOO." /\
  toSentenceCase "disallow using FOO." <>
  toUpperCase (charAt0 "disallow using FOO.")
  +:+ toLowerCase (slice1 "disallow using FOO.").
Proof. repeat split. by intros [=]. Qed.

End NoticesAndTitles.

(** ** Validation diagnostics *)

Section Diagnostics.

Import Generator.

Context `{Externals}.

Lemma emits_refl (w : World) : emits w w 0.
Proof.
  repeat split. exists []. by rewrite app_nil_r.
Qed.

Lemma emits_one (message : string) (w : World) :
  emits w (setExitCode 1 (consoleError message w)) 1.
Proof. repeat split. by exists [message]. Qed.

Lemma emits_trans (w1 w2 w3 : World) (n m : nat) :
  emits w1 w2 n -> emits w2 w3 m -> emits w1 w3 (n + m).
Proof.
  intros (Hf1 & (d1 & Hs1 & Hl1) & He1) (Hf2 & (d2 & Hs2 & Hl2) & He2).
  split; [congruence|]. split.
  - exists (d1 ++ d2). rewrite Hs2, Hs1, app_assoc, length_app. split; [done|lia].
  - rewrite He2. destruct m; [by rewrite Nat.add_0_r|].
    by replace (n + S m)%nat with (S (n + m)) by lia.
Qed.

Lemma expectContent_emits (ruleName contents content : string)
    (expected : bool) (w : World) :
  emits w (expectContent ruleName contents content expected w)
    (if eqb (Js.includes contents content) expected then 0 else 1).
Proof.
  unfold expectContent.
  destruct (eqb _ _); simpl; [apply emits_refl | apply emits_one].
Qed.

Lemma completes_andThen (o : Outcome) (k : World -> Outcome) (w : World)
    (n m : nat) :
  completes o w n ->
  (forall w', emits w w' n -> completes (k w') w' m) ->
  completes (andThen o k) w (n + m).
Proof.
  intros (w1 & -> & H1) Hk. destruct (Hk w1 H1) as (w2 & E & H2).
  exists w2. split; [done|]. by eapply emits_trans.
Qed.

(** When the search for a heading returns, [expectSectionHeader]
    returns too, with one diagnostic when what was found is not what
    was expected. *)
Lemma expectSectionHeader_emits (ruleName contents : string)
    (possibleHeaders : list string) (expected found : bool) (w : World) :
  someSectionHeader contents possibleHeaders = Ok found ->
  completes
    (expectSectionHeader ruleName contents possibleHeaders expected w) w
    (if eqb found expected then 0 else 1).
Proof.
  intros Hs. unfold expectSectionHeader. rewrite Hs.
  destruct (eqb found expected); cbn [negb]; eexists; split; try done;
    [apply emits_refl | apply emits_one].
Qed.

(** A loop of checks reports the sum of what its turns report. *)
Lemma foldl_emits {A} (check : World -> A -> World) (count : A -> nat)
    (items : list A) :
  (forall w x, emits w (check w x) (count x)) ->
  forall w, emits w (foldl check w items) (foldr (fun x n => count x + n)%nat 0%nat items).
Proof.
  intros Hc. induction items as [|x items IH]; intros w; simpl.
  - apply emits_refl.
  - eapply emits_trans; [apply Hc | apply IH].
Qed.

Lemma forOf_completes {A} (body : A -> World -> Outcome) (count : A -> nat)
    (items : list A) :
  (forall x, x ∈ items -> forall w, completes (body x w) w (count x)) ->
  forall w,
    completes (forOf items body w) w
      (foldr (fun x n => count x + n)%nat 0%nat items).
Proof.
  induction items as [|x items IH]; intros Hc w; cbn [forOf foldr].
  - exists w. split; [done | apply emits_refl].
  - apply completes_andThen; [apply Hc; left|].
    intros w' _. apply IH. intros y Hy. apply Hc. by right.
Qed.

Lemma count_unmentioned (contents : string) (options : list string) :
  foldr
    (fun x n => (if eqb (Js.includes contents x) true then 0 else 1) + n)%nat
    0%nat options
  = length (List.filter (fun o => negb (Js.includes contents o)) options).
Proof.
  induction options as [|o options IH]; simpl; [done|].
  rewrite IH. by destruct (Js.includes contents o).
Qed.

(** The phrases [Options] and [Config] are plain words: the locator
    returns for them, on every text and whatever the platform. *)
Lemma findSectionHeader_Options (contents : string) :
  exists section,
    Markdown.findSectionHeader contents "Options" = Ok section.
Proof. by eexists. Qed.

Lemma findSectionHeader_Config (contents : string) :
  exists section,
    Markdown.findSectionHeader contents "Config" = Ok section.
Proof. by eexists. Qed.

(** The search for one phrase, and for two. *)
Lemma someSectionHeader_one (contents header : string) :
  validPhrase header ->
  someSectionHeader contents [header]
  = Ok (sectionFound contents header).
Proof.
  intros [regexp Hre]. unfold sectionFound. cbn [someSectionHeader].
  unfold Markdown.findSectionHeader. rewrite Hre. cbn [bindResult].
  by destruct (Js.truthy_opt _).
Qed.

Lemma someSectionHeader_two (contents header1 header2 : string)
    (section1 section2 : option string) :
  embeddedPhrase header1 ->
  embeddedPhrase header2 ->
  Markdown.findSectionHeader contents header1 = Ok section1 ->
  Markdown.findSectionHeader contents header2 = Ok section2 ->
  someSectionHeader contents [header1; header2]
  = Ok (bool_decide (is_Some section1 \/ is_Some section2)).
Proof.
  intros He1 He2 Hf1 Hf2. cbn [someSectionHeader]. rewrite Hf1, Hf2.
  cbn [bindResult].
  rewrite (findSectionHeader_truthy _ _ _ He1 Hf1),
    (findSectionHeader_truthy _ _ _ He2 Hf2).
  rewrite bool_decide_or.
  destruct (bool_decide (is_Some section1)); [done|].
  by destruct (bool_decide (is_Some section2)).
Qed.

Lemma checkOptionsSection_emits (name contents : string) (schema : Schema)
    (w : World) (options config : option string) :
  Markdown.findSectionHeader contents "Options" = Ok options ->
  Markdown.findSectionHeader contents "Config" = Ok config ->
  completes (checkOptionsSection name contents schema w) w
    ((if eqb (bool_decide (is_Some options \/ is_Some config))
           (hasOptions schema)
      then 0 else 1)
     + length
         (List.filter (fun o => negb (Js.includes contents o))
            (getAllNamedOptions schema))).
Proof.
  intros Ho Hc. unfold checkOptionsSection.
  apply completes_andThen.
  - apply expectSectionHeader_emits. by apply someSectionHeader_two.
  - intros w' _. eexists. split; [done|].
    rewrite <- count_unmentioned.
    apply (foldl_emits
             (fun w namedOption =>
                expectContent name contents namedOption true w)
             (fun o => if eqb (Js.includes contents o) true
                       then 0%nat else 1%nat)).
    intros w0 x. apply expectContent_emits.
Qed.

(** C7.  Options validation.  The locator returns for the phrases
    [Options] and [Config]; the options check returns, having reported
    one diagnostic when an Options/Config section is found but the
    schema has no options, or is not found although it has, and one
    diagnostic for every option name of the schema that the body does
    not contain; so for a schema with one option and a body with
    neither heading nor a mention of it, the checks of the rule doc
    report exactly two diagnostics. *)
Theorem options_validation (name contents : string) (schema : Schema)
    (w : World) :
  exists options config : option string,
    Markdown.findSectionHeader contents "Options" = Ok options /\
    Markdown.findSectionHeader contents "Config" = Ok config /\
    let found := bool_decide (is_Some options \/ is_Some config) in
    let unmentioned :=
      List.filter (fun o => negb (Js.includes contents o))
        (getAllNamedOptions schema) in
    (exists w',
       checkOptionsSection name contents schema w = Completed w' /\
       emits w w'
         ((if eqb found (hasOptions schema) then 0 else 1)
          + length unmentioned)) /\
    (forall option : string,
       hasOptions schema = true ->
       getAllNamedOptions schema = [option] ->
       options = None ->
       config = None ->
       Js.includes contents option = false ->
       exists w',
         checkRuleDoc None name contents schema w = Completed w' /\
         emits w w' 2).
Proof.
  destruct (findSectionHeader_Options contents) as [options Ho].
  destruct (findSectionHeader_Config contents) as [config Hc].
  exists options, config. split; [done|]. split; [done|].
  intros found unmentioned.
  pose proof (checkOptionsSection_emits name contents schema w options
                config Ho Hc) as He.
  split; [exact He|].
  intros option Hh Hn -> -> Hi.
  rewrite Hh, Hn in He.
  rewrite bool_decide_eq_false_2 in He by (by intros [[? ?]|[? ?]]).
  cbn [List.filter] in He. rewrite Hi in He. exact He.
Qed.

End Diagnostics.

(** ** The checks of one rule doc *)

Section CheckOutcomes.

Import Generator.

Context `{Externals}.

(** The search among the headers returns when [new RegExp] accepts the
    pattern of every header. *)
Lemma someSectionHeader_returns (contents : string)
    (possibleHeaders : list string) :
  Forall validPhrase possibleHeaders ->
  exists found, someSectionHeader contents possibleHeaders = Ok found.
Proof.
  induction 1 as [|header possibleHeaders [regexp Hre] _ [found IH]];
    cbn [someSectionHeader]; [by eexists|].
  unfold Markdown.findSectionHeader. rewrite Hre. cbn [bindResult].
  destruct (Js.truthy_opt _); eauto.
Qed.



(** The check of one section whose pattern [new RegExp] accepts
    returns, with one diagnostic when the section is found and not
    expected, or expected and not found. *)
Lemma expectSectionHeader_one (name contents section : string)
    (expected : bool) (w : World) :
  validPhrase section ->
  completes (expectSectionHeader name contents [section] expected w) w
    (if eqb (sectionFound contents section) expected then 0 else 1).
Proof.
  intros Hvalid. apply expectSectionHeader_emits.
  by apply someSectionHeader_one.
Qed.

Lemma count_filter {A} (f : A -> bool) (items : list A) :
  foldr (fun x n => (if eqb (f x) true then 0 else 1) + n)%nat 0%nat items
  = length (List.filter (fun x => negb (f x)) items) /\
  foldr (fun x n => (if eqb (f x) false then 0 else 1) + n)%nat 0%nat items
  = length (List.filter f items).
Proof.
  induction items as [|x items [IH1 IH2]]; simpl; [done|].
  rewrite IH1, IH2. by destruct (f x).
Qed.

(** A loop of section checks over sections whose patterns [new RegExp]
    accepts returns, with one diagnostic for every section that is not
    as expected. *)
Lemma forOf_sections_completes (name contents : string) (expected : bool)
    (sections : list string) (w : World) :
  Forall validPhrase sections ->
  completes
    (forOf sections
       (fun section w =>
          expectSectionHeader name contents [section] expected w) w)
    w
    (foldr
       (fun section n =>
          (if eqb (sectionFound contents section) expected then 0 else 1)
          + n)%nat
       0%nat sections).
Proof.
  intros Hall.
  apply (forOf_completes
           (fun section w =>
              expectSectionHeader name contents [section] expected w)
           (fun section =>
              if eqb (sectionFound contents section) expected
              then 0%nat else 1%nat)).
  intros section Hin w0. apply expectSectionHeader_one.
  by apply (proj1 (Forall_forall _ _) Hall).
Qed.


End CheckOutcomes.

(** ** The generation run *)

Section GenerationRun.

Import Generator.

(** The header merge called on strings throws, whatever the strings. *)
Lemma replaceOrCreateHeaderOnStrings_throws
    (lines newHeaderLines marker : string) :
  Markdown.replaceOrCreateHeaderOnStrings lines newHeaderLines marker
  = Throw "lines.splice is not a function".
Proof.
  unfold Markdown.replaceOrCreateHeaderOnStrings.
  by destruct (_ && _).
Qed.

Context `{Externals}.

Variables (path : string) (options : option Options).

Let plugin := loadPlugin path.
Let pluginPrefix := getPluginPrefix path.
Let configsToRules := resolveConfigsToRules plugin.
Let run := updateRuleDocs path options plugin configsToRules pluginPrefix.

(** The loop body for a rule whose doc exists throws and leaves the
    world as it was: on the title format, or else on the header
    merge. *)
Lemma updateRuleDoc_aborts (d : RuleDetails Schema) (pathToDoc : string)
    (w : World) :
  updateRuleDoc options plugin configsToRules pluginPrefix d pathToDoc w
  = Aborted
      match newHeaderLinesOf options plugin configsToRules pluginPrefix d
      with
      | Throw message => message
      | Ok _ => "lines.splice is not a function"
      end
      w.
Proof.
  unfold updateRuleDoc.
  destruct (newHeaderLinesOf _ _ _ _ _) as [newHeaderLines|message];
    [|done].
  by rewrite replaceOrCreateHeaderOnStrings_throws.
Qed.


(** The loop returns only by skipping every rule, and however it ends
    it leaves the world as it was. *)
Lemma run_outcome (details : list (RuleDetails Schema)) (w : World) :
  run details w = Completed w \/
  exists message, run details w = Aborted message w.
Proof.
  subst run. induction details as [|d details IH]; [by left|].
  cbn [updateRuleDocs].
  destruct (negb (existsSync (pathToDocOf path (rd_name d)) w)).
  - destruct (rd_deprecated d); [exact IH | right; eauto].
  - rewrite updateRuleDoc_aborts. right. eauto.
Qed.

Lemma run_completed (details : list (RuleDetails Schema)) (w w' : World) :
  run details w = Completed w' ->
  w' = w /\
  forall d, d ∈ details ->
            existsSync (pathToDocOf path (rd_name d)) w = false /\
            rd_deprecated d = true.
Proof.
  subst run. induction details as [|d details IH]; cbn [updateRuleDocs].
  - intros [= <-]. split; [done|]. by intros d ?%elem_of_nil.
  - destruct (existsSync (pathToDocOf path (rd_name d)) w) eqn:Hex;
      cbn [negb].
    + by rewrite updateRuleDoc_aborts.
    + destruct (rd_deprecated d) eqn:Hdep; [|done].
      intros [-> Hall]%IH. split; [done|].
      intros d' [->|Hin]%elem_of_cons; [done | by apply Hall].
Qed.


End GenerationRun.

(** ** The fixable notice and the title format in a run *)

Section HeaderOfARun.

Import RuleNotices Generator.

Context `{Externals}.

Lemma noticeLines_fixable (meta : RuleMeta Schema)
    (configsEnabled : list string) (urlConfigs : option string) :
  Js.truthy_opt (fixable meta) = true ->
  getMessages urlConfigs FIXABLE ∈
    flat_map
      (noticeLines meta configsEnabled urlConfigs
         (getNoticesForRule meta configsEnabled))
      messageTypes.
Proof.
  intros Hf. apply list_elem_of_In, in_flat_map.
  exists FIXABLE. split; [unfold messageTypes; simpl; tauto|].
  unfold noticeLines. cbn [notice getNoticesForRule n_fixable].
  rewrite Hf. simpl. tauto.
Qed.

(** C10.  The fixable notice goes by the truthiness of [meta.fixable],
    the [fixable] of [RuleDetails] by its being [code] or [whitespace]:
    for a rule whose [meta.fixable] is another non-empty string, the
    notice lines of its header hold the fixable notice while its
    [RuleDetails] say it is not fixable. *)
Theorem fixable_notice_and_details_differ :
  (forall (meta : RuleMeta Schema) configsEnabled,
     n_fixable (getNoticesForRule meta configsEnabled)
     = Js.truthy_opt (fixable meta)) /\
  (forall name (meta : RuleMeta Schema),
     rd_fixable (gatherDetails (name, RuleObject meta)) = true <->
     fixable meta = Some "code" \/ fixable meta = Some "whitespace") /\
  (forall name (meta : RuleMeta Schema) entries configsToRules pluginPrefix
          ignoreConfig urlConfigs,
     Js.truthy_opt (fixable meta) = true ->
     fixable meta <> Some "code" ->
     fixable meta <> Some "whitespace" ->
     lookupRule entries name = Some (RuleObject meta) ->
     rd_fixable (gatherDetails (name, RuleObject meta)) = false /\
     exists lines,
       getRuleNoticeLines name {| rules := Some entries |} configsToRules
         pluginPrefix ignoreConfig urlConfigs = Ok lines /\
       getMessages urlConfigs FIXABLE ∈ lines).
Proof.
  assert (Hd : forall name (meta : RuleMeta Schema),
             rd_fixable (gatherDetails (name, RuleObject meta)) = true <->
             fixable meta = Some "code" \/ fixable meta = Some "whitespace").
  { intros name meta. cbn [gatherDetails rd_fixable].
    destruct (fixable meta) as [f|]; [|split; [done | by intros [?|?]]].
    unfold Js.arr_includes. cbn [existsb].
    destruct (String.eqb_spec f "code") as [->|Hc];
      [split; [auto | done]|].
    destruct (String.eqb_spec f "whitespace") as [->|Hw];
      [split; [auto | done]|].
    simpl. destruct (Js.truthy f); split; try done;
      intros [[= ?]|[= ?]]; done. }
  split; [done|]. split; [exact Hd|].
  intros name meta entries configsToRules pluginPrefix ignoreConfig
    urlConfigs Hf Hc Hw Hl.
  split.
  - destruct (rd_fixable (gatherDetails (name, RuleObject meta))) eqn:E;
      [|done].
    apply Hd in E as [?|?]; done.
  - unfold getRuleNoticeLines. cbn [rules mbind option_bind].
    rewrite (ruleProperty_own _ _ _ Hl).
    eexists. split; [done|]. by apply noticeLines_fixable.
Qed.

(** The title of the header [generate] computes is the one [makeTitle]
    renders for the value of [options.urlConfigs]: the seventh
    parameter of [generateRuleHeaderLines] receives the seventh
    argument of the call. *)
Lemma newHeaderLinesOf_title (options : option Options)
    (plugin : Plugin Schema) (configsToRules : ConfigsToRules)
    (pluginPrefix : string) (d : RuleDetails Schema) :
  match makeTitle (rd_name d) (rd_description d) pluginPrefix
          (opt options urlConfigs) with
  | Throw message =>
      newHeaderLinesOf options plugin configsToRules pluginPrefix d
      = Throw message
  | Ok title =>
      forall header,
        newHeaderLinesOf options plugin configsToRules pluginPrefix d
        = Ok header ->
        exists lines, header = Js.join (String "010" "") (title :: lines)
  end.
Proof.
  unfold newHeaderLinesOf, generateRuleHeaderLines.
  destruct (makeTitle _ _ _ _) as [title|message]; [|done].
  cbn [bindResult]. intros header.
  destruct (getRuleNoticeLines _ _ _ _ _ _) as [lines|?]; [|done].
  cbn [bindResult]. intros [= <-]. by eexists.
Qed.

End HeaderOfARun.

(** ** Runs on the sample plugin *)

Section SampleRuns.

Import RuleNotices Generator Sample.

(** C4 (what the code does).  [generate] hands [options.ruleDocTitleFormat]
    to [generateRuleHeaderLines] in the place of [ignoreConfig], and
    [options.urlConfigs] in the place of the title format.  With the
    format [name] selected, the title written for [no-baz] is the one of
    the default format, not [makeTitle]'s title for [name]; and when a
    configs URL is given too, the run throws on that URL as an unhandled
    title format. *)
Theorem generate_title_format_not_applied :
  makeTitle (H := externals) "no-baz" (Some "disallow baz") "test"
    (Some "name")
  = Ok "# `no-baz`" /\
  newHeaderLinesOf (H := externals) (optionsWith "name" None) plugin configs
    "test" detailsNoBaz
  = Ok (Js.join nl
          ["# Disallow baz (`test/no-baz`)";
           "";
           getMessages (H := externals) None FIXABLE;
           "";
           "<!-- end rule header -->"]) /\
  generate (H := externals) "p"
    (optionsWith "name" (Some "https://example.com/configs")) world
  = Aborted "Unhandled rule doc title format: https://example.com/configs"
      world.
Proof. split; [|split]; vm_compute; reflexivity. Qed.

Lemma options_validation_witness :
  exists w',
    checkRuleDoc (H := externals) None "no-foo" plainDoc ["allowList"] world
    = Completed w' /\
    emits world w' 2.
Proof.
  destruct (options_validation (H := externals) "no-foo" plainDoc
              ["allowList"] world)
    as (options & config & Ho & Hc & _ & Hscenario).
  apply (Hscenario "allowList"); try reflexivity.
  - assert (Hn : Markdown.findSectionHeader (H := externals) plainDoc
                   "Options"
                 = Ok None) by reflexivity.
    rewrite Hn in Ho. by injection Ho.
  - assert (Hn : Markdown.findSectionHeader (H := externals) plainDoc
                   "Config"
                 = Ok None) by reflexivity.
    rewrite Hn in Hc. by injection Hc.
Defined.


(** A required section named [C++]: the check throws where the pattern
    is built, and reports nothing. *)
Example expectSectionHeader_invalid_phrase :
  exists message,
    expectSectionHeader (H := externals) "no-foo" plainDoc ["C++"] true
      world
    = Aborted message world.
Proof. by eexists. Qed.

(** A run on a plugin whose rules are all deprecated and without docs
    returns, and rewrites the README. *)
Example generate_only_deprecated :
  exists w',
    generate (H := DeprecatedSample.externalsOnlyDeprecated) "p" None
      worldNoDocs
    = Completed w' /\
    files w' !! "p/README.md" = Some ("# plugin" +:+ nl +:+ "rules" +:+ nl).
Proof. eexists. split; reflexivity. Qed.

Lemma fixable_notice_and_details_differ_witness :
  rd_fixable detailsNoFoo = false /\
  exists lines,
    getRuleNoticeLines (H := externals) "no-foo" plugin configs "test" None None = Ok lines /\
    getMessages (H := externals) None FIXABLE ∈ lines.
Proof.
  destruct (fixable_notice_and_details_differ (H := externals))
    as (_ & _ & Hdiffer).
  apply (Hdiffer "no-foo"
           {| docs := Some {| description := Some "disallow using FOO.";
                              requiresTypeChecking := None |};
              fixable := Some "other";
              hasSuggestions := None;
              deprecated := None;
              replacedBy := None;
              schema := ["allowList"] |});
    try reflexivity; by intros [=].
Defined.

(** The header written for the rule whose [meta.fixable] is [other]. *)
Example newHeaderLinesOf_no_foo :
  newHeaderLinesOf (H := externals) None plugin configs "test" detailsNoFoo
  = Ok (Js.join nl
          ["# Disallow using FOO (`test/no-foo`)";
           "";
           "(ok) This rule is enabled in the `recommended` config.";
           "";
           getMessages (H := externals) None FIXABLE;
           "";
           "<!-- end rule header -->"]).
Proof. reflexivity. Qed.

End SampleRuns.

(** ** More on titles *)

Section Titles.

Import RuleNotices.

Context `{Externals}.

(** X1.  Title fallback: when the format in force contains [desc] and
    the rule has no description (or an empty one), the title is the
    prefixed name, and [makeTitle] does not throw. *)
Theorem makeTitle_fallback (name pluginPrefix : string)
    (description ruleDocTitleFormat : option string) :
  Js.includes (default RULE_DOC_TITLE_FORMAT_DEFAULT ruleDocTitleFormat)
    "desc" = true ->
  Js.truthy_opt description = false ->
  makeTitle name description pluginPrefix ruleDocTitleFormat
  = Ok ("# `" +:+ pluginPrefix +:+ "/" +:+ name +:+ "`").
Proof.
  intros Hf Hd. unfold makeTitle. by rewrite Hf, Hd.
Qed.

(** Every title [makeTitle] returns is a level-1 heading: it starts with
    [# ]. *)
Lemma makeTitle_heading (name pluginPrefix title : string)
    (description ruleDocTitleFormat : option string) :
  makeTitle name description pluginPrefix ruleDocTitleFormat = Ok title ->
  Js.startsWith title "# " = true.
Proof.
  unfold makeTitle.
  repeat (match goal with
          | |- context [if String.eqb ?a ?b then _ else _] =>
              destruct (String.eqb a b)
          end;
          [intros [= <-]; unfold Js.startsWith; simpl;
           first [reflexivity | apply prefix_empty]|]).
  done.
Qed.

(** With one of the five formats in force [makeTitle] returns a title. *)
Lemma makeTitle_supported (name pluginPrefix : string)
    (description ruleDocTitleFormat : option string) :
  default RULE_DOC_TITLE_FORMAT_DEFAULT ruleDocTitleFormat ∈ titleFormats ->
  exists title,
    makeTitle name description pluginPrefix ruleDocTitleFormat = Ok title.
Proof.
  unfold makeTitle.
  generalize (default RULE_DOC_TITLE_FORMAT_DEFAULT ruleDocTitleFormat).
  intros format Hin. unfold titleFormats in Hin.
  repeat (apply elem_of_cons in Hin as [->|Hin];
          [simpl; destruct (Js.truthy_opt description); simpl; eauto|]).
  by apply elem_of_nil in Hin.
Qed.

(** X2.  [makeTitle] returns a title for each of the five formats, with
    or without a description; for any other format it throws, naming the
    format, unless the format contains [desc] and the description is
    missing (the fallback of X1). *)
Theorem makeTitle_throws (name pluginPrefix format : string)
    (description : option string) :
  (format ∈ titleFormats ->
   exists title,
     makeTitle name description pluginPrefix (Some format) = Ok title) /\
  (format ∉ titleFormats ->
   Js.truthy_opt description = true \/ Js.includes format "desc" = false ->
   makeTitle name description pluginPrefix (Some format)
   = Throw ("Unhandled rule doc title format: " +:+ format)).
Proof.
  split.
  - intros Hin. by apply makeTitle_supported.
  - intros Hn Hc. unfold makeTitle.
    change (default RULE_DOC_TITLE_FORMAT_DEFAULT (Some format)) with format.
    assert (Hfb : Js.includes format "desc"
                  && negb (Js.truthy_opt description) = false).
    { destruct Hc as [Hc|Hc]; rewrite Hc; [apply andb_false_r | done]. }
    rewrite Hfb.
    repeat match goal with
           | |- context [String.eqb format ?b] =>
               destruct (String.eqb_spec format b) as [E|_];
               [exfalso; apply Hn; rewrite E; apply list_elem_of_In; simpl;
                auto 10|]
           end.
    done.
Qed.

Lemma toUpperChar_fixed (c : ascii) :
  isWordChar c = true ->
  isWordChar (toUpperChar c) = true /\
  toUpperChar (toUpperChar c) = toUpperChar c.
Proof.
  destruct c as [[] [] [] [] [] [] [] []]; vm_compute; intros; by split.
Qed.

(** X3.  [toSentenceCase] keeps the length of its input and is
    idempotent. *)
Theorem toSentenceCase_idempotent (str : string) :
  String.length (toSentenceCase str) = String.length str /\
  toSentenceCase (toSentenceCase str) = toSentenceCase str.
Proof.
  destruct str as [|c rest]; [done|].
  rewrite toSentenceCase_cons.
  destruct (isWordChar c) eqn:E; [|by rewrite toSentenceCase_cons, E].
  destruct (toUpperChar_fixed c E) as [Hw Hu].
  by rewrite toSentenceCase_cons, Hw, Hu.
Qed.

Lemma removeTrailingPeriod_cons (c : ascii) (str : string) :
  str <> "" ->
  removeTrailingPeriod (String c str) = String c (removeTrailingPeriod str).
Proof. by destruct str. Qed.

(** X4.  [removeTrailingPeriod] drops exactly one period at the end of
    the string, and returns every string that does not end with a period
    as it is. *)
Theorem removeTrailingPeriod_spec (str : string) :
  (exists r, str = r +:+ "." /\ removeTrailingPeriod str = r) \/
  (removeTrailingPeriod str = str /\ forall r, str <> r +:+ ".").
Proof.
  induction str as [|c str IH].
  - right. split; [done|]. by intros [|? [|? ?]].
  - destruct str as [|c' str'].
    + cbn [removeTrailingPeriod].
      destruct (Ascii.eqb_spec c ".") as [->|Hne].
      * left. by exists "".
      * right. split; [done|].
        intros [|a [|? ?]] [=]; simplify_eq.
    + rewrite removeTrailingPeriod_cons by done.
      destruct IH as [(r & -> & ->)|[-> Hn]].
      * left. by exists (String c r).
      * right. split; [done|].
        intros [|a r] [=]; simplify_eq. by apply (Hn r).
Qed.

Example removeTrailingPeriod_two_periods :
  removeTrailingPeriod "Disallow foo.." = "Disallow foo.".
Proof. reflexivity. Qed.

End Titles.

(** ** More on notices and headers *)

Section Headers.

Import RuleNotices.

Context `{Externals}.

Lemma config_notices_exclusive (meta : RuleMeta Schema)
    (configsEnabled : list string) :
  n_configs (getNoticesForRule meta configsEnabled)
  && n_configRecommended (getNoticesForRule meta configsEnabled) = false.
Proof.
  cbn [getNoticesForRule n_configs n_configRecommended].
  destruct (Z.ltb_spec 1 (Z.of_nat (length configsEnabled))),
    (Z.eqb_spec (Z.of_nat (length configsEnabled)) 1),
    (bool_decide (head configsEnabled = Some "recommended"));
    simpl; try done; lia.
Qed.

(** X5.  The notice lines come in pairs, a blank line and then a message,
    and there are at most four pairs: the two config notices never go
    together. *)
Theorem getRuleNoticeLines_pairs (ruleName pluginPrefix : string)
    (plugin : Plugin Schema) (configsToRules : ConfigsToRules)
    (ignoreConfig : option Includable) (urlConfigs : option string)
    (lines : list string) :
  getRuleNoticeLines ruleName plugin configsToRules pluginPrefix ignoreConfig
    urlConfigs = Ok lines ->
  exists messages,
    lines = flat_map (fun message => [""; message]) messages /\
    (length messages <= 4)%nat.
Proof.
  unfold getRuleNoticeLines.
  destruct (rules plugin ≫= _) as [[[meta|]|]|]; [| |done|done].
  - intros [= <-].
    set (configsEnabled := List.filter _ _).
    pose proof (config_notices_exclusive meta configsEnabled) as Hex.
    unfold messageTypes, noticeLines. cbn [flat_map notice].
    destruct (n_configs _), (n_configRecommended _); try discriminate Hex;
      destruct (n_deprecated _), (n_fixable _), (n_hasSuggestions _);
      cbn [negb app];
      lazymatch goal with
      | |- exists _, [] = _ /\ _ => exists []
      | |- exists _, [""; ?a] = _ /\ _ => exists [a]
      | |- exists _, [""; ?a; ""; ?b] = _ /\ _ => exists [a; b]
      | |- exists _, [""; ?a; ""; ?b; ""; ?c] = _ /\ _ => exists [a; b; c]
      | |- exists _, [""; ?a; ""; ?b; ""; ?c; ""; ?d] = _ /\ _ =>
          exists [a; b; c; d]
      end;
      (split; [reflexivity | simpl; lia]).
  - intros [= <-]. exists []. split; [done | simpl; lia].
Qed.

Lemma arr_includes_elem (arr : list string) (x : string) :
  Js.arr_includes arr x = true <-> x ∈ arr.
Proof.
  unfold Js.arr_includes. rewrite existsb_exists. split.
  - intros (y & Hin & ->%String.eqb_eq). by apply list_elem_of_In.
  - intros Hin. exists x. split; [by apply list_elem_of_In|].
    apply String.eqb_refl.
Qed.

(** X6.  A rule given as a function is not an error: its header is the
    title, a blank line and the marker, and so is the header for a name
    that is no entry of [rules] but a method every object inherits, such
    as [toString].  Any other name that is no entry makes the header
    generation throw: [Rule not found], or for [__proto__] the
    [TypeError] of reading [meta.deprecated] on the prototype. *)
Theorem generateRuleHeaderLines_without_meta (description : option string)
    (name pluginPrefix title : string)
    (entries : list (string * RuleModule Schema))
    (configsToRules : ConfigsToRules) (ignoreConfig : option Includable)
    (ruleDocTitleFormat urlConfigs : option string) :
  makeTitle name description pluginPrefix ruleDocTitleFormat = Ok title ->
  let header :=
    generateRuleHeaderLines description name {| rules := Some entries |}
      configsToRules pluginPrefix ignoreConfig ruleDocTitleFormat
      urlConfigs in
  (lookupRule entries name = Some RuleFunction \/
   lookupRule entries name = None /\ name ∈ objectPrototypeMethods ->
   header
   = Ok (title +:+ String "010" "" +:+ String "010" ""
         +:+ END_RULE_HEADER_MARKER)) /\
  (lookupRule entries name = None ->
   name ∉ objectPrototypeMethods ->
   name <> "__proto__" ->
   header = Throw "Rule not found") /\
  (lookupRule entries name = None ->
   name = "__proto__" ->
   header
   = Throw "Cannot read properties of undefined (reading 'deprecated')").
Proof.
  intros Ht header. subst header.
  unfold generateRuleHeaderLines, getRuleNoticeLines, ruleProperty.
  rewrite Ht. cbn [bindResult rules mbind option_bind].
  split; [|split].
  - intros [->|[-> Hin]]; [reflexivity|].
    apply arr_includes_elem in Hin. by rewrite Hin.
  - intros -> Hnot Hproto.
    destruct (Js.arr_includes objectPrototypeMethods name) eqn:E.
    { by apply arr_includes_elem in E. }
    by destruct (String.eqb_spec name "__proto__").
  - by intros -> ->.
Qed.

(** X7.  A deprecated rule that no config enables and that is neither
    fixable nor has suggestions gets exactly one notice: the deprecation
    sentence, followed by links to the replacement rules when
    [replacedBy] is a non-empty array. *)
Theorem deprecated_only_notice (name pluginPrefix : string)
    (meta : RuleMeta Schema) (entries : list (string * RuleModule Schema))
    (configsToRules : ConfigsToRules) (ignoreConfig : option Includable)
    (urlConfigs : option string) :
  lookupRule entries name = Some (RuleObject meta) ->
  getConfigsForRule name configsToRules pluginPrefix = [] ->
  deprecated meta = Some true ->
  Js.truthy_opt (fixable meta) = false ->
  default false (hasSuggestions meta) = false ->
  getRuleNoticeLines name {| rules := Some entries |} configsToRules
    pluginPrefix ignoreConfig urlConfigs
  = Ok [""; match replacedBy meta with
            | Some (r :: rs) =>
                getMessages urlConfigs DEPRECATED +:+ " It was replaced by "
                +:+ ruleNamesToList (r :: rs) +:+ "."
            | _ => getMessages urlConfigs DEPRECATED
            end].
Proof.
  intros Hl Hc Hd Hf Hs. unfold getRuleNoticeLines.
  cbn [rules mbind option_bind]. rewrite (ruleProperty_own _ _ _ Hl), Hc.
  cbn [List.filter].
  unfold messageTypes, noticeLines, getNoticesForRule.
  cbn [flat_map notice n_configs n_configRecommended n_deprecated n_fixable
         n_hasSuggestions].
  rewrite Hd, Hf, Hs. reflexivity.
Qed.

Lemma filter_none {A} (f : A -> bool) (l : list A) :
  (forall x, In x l -> f x = false) -> List.filter f l = [].
Proof.
  induction l as [|x l IH]; intros Hf; simpl; [done|].
  rewrite (Hf x) by (by left). apply IH. intros y Hy. apply Hf. by right.
Qed.

(** X8.  When every config that enables a rule is in the [ignoreConfig]
    array, the rule gets no config notice: its notice lines are those of
    the deprecated, fixable and suggestions notices only. *)
Theorem ignored_configs_no_config_notice (name pluginPrefix : string)
    (meta : RuleMeta Schema) (entries : list (string * RuleModule Schema))
    (configsToRules : ConfigsToRules) (ignored : list string)
    (urlConfigs : option string) :
  lookupRule entries name = Some (RuleObject meta) ->
  (forall config,
     config ∈ getConfigsForRule name configsToRules pluginPrefix ->
     config ∈ ignored) ->
  getRuleNoticeLines name {| rules := Some entries |} configsToRules
    pluginPrefix (Some (IncArray ignored)) urlConfigs
  = Ok (flat_map
          (noticeLines meta [] urlConfigs (getNoticesForRule meta []))
          [DEPRECATED; FIXABLE; HAS_SUGGESTIONS]).
Proof.
  intros Hl Hi. unfold getRuleNoticeLines.
  cbn [rules mbind option_bind]. rewrite (ruleProperty_own _ _ _ Hl).
  rewrite filter_none; [reflexivity|].
  intros config Hin. cbn [includable_includes].
  apply list_elem_of_In, Hi, arr_includes_elem in Hin. by rewrite Hin.
Qed.

(** X9.  Every header [generateRuleHeaderLines] returns starts with a
    level-1 title and ends with a blank line followed by the marker. *)
Theorem generateRuleHeaderLines_shape (description : option string)
    (name pluginPrefix header : string) (plugin : Plugin Schema)
    (configsToRules : ConfigsToRules) (ignoreConfig : option Includable)
    (ruleDocTitleFormat urlConfigs : option string) :
  generateRuleHeaderLines description name plugin configsToRules pluginPrefix
    ignoreConfig ruleDocTitleFormat urlConfigs = Ok header ->
  exists body,
    header = body +:+ String "010" "" +:+ String "010" ""
             +:+ END_RULE_HEADER_MARKER /\
    Js.startsWith body "# " = true.
Proof.
  unfold generateRuleHeaderLines.
  destruct (makeTitle _ _ _ _) as [title|] eqn:Ht; [|done].
  cbn [bindResult].
  destruct (getRuleNoticeLines _ _ _ _ _ _) as [lines|]; [|done].
  cbn [bindResult]. intros [= <-].
  exists (Js.join (String "010" "") (title :: lines)). split.
  - transitivity
      (Js.join (String "010" "")
         (((title :: lines) ++ [""]) ++ [END_RULE_HEADER_MARKER]));
      [by rewrite <- app_assoc|].
    rewrite join_snoc by (by destruct lines).
    rewrite join_snoc by done.
    by rewrite !append_assoc.
  - apply join_startsWith. by apply makeTitle_heading in Ht.
Qed.

Lemma lookupRule_member (entries : list (string * RuleModule Schema))
    (name : string) (rule : RuleModule Schema) :
  (name, rule) ∈ entries -> is_Some (lookupRule entries name).
Proof.
  intros Hin. unfold lookupRule.
  destruct (find _ entries) as [entry|] eqn:E; [by eexists|].
  apply list_elem_of_In in Hin.
  pose proof (find_none _ _ E _ Hin) as Hf. simpl in Hf.
  by rewrite String.eqb_refl in Hf.
Qed.

(** X24.  For a rule that is among the plugin's rules and one of the five
    title formats in force, [generateRuleHeaderLines] returns a header:
    the [Rule not found] error cannot happen for a registered rule. *)
Theorem generateRuleHeaderLines_registered (description : option string)
    (name pluginPrefix : string) (rule : RuleModule Schema)
    (entries : list (string * RuleModule Schema))
    (configsToRules : ConfigsToRules) (ignoreConfig : option Includable)
    (ruleDocTitleFormat urlConfigs : option string) :
  (name, rule) ∈ entries ->
  default RULE_DOC_TITLE_FORMAT_DEFAULT ruleDocTitleFormat ∈ titleFormats ->
  exists header,
    generateRuleHeaderLines description name {| rules := Some entries |}
      configsToRules pluginPrefix ignoreConfig ruleDocTitleFormat urlConfigs
    = Ok header.
Proof.
  intros [found Hl]%lookupRule_member Hf.
  destruct (makeTitle_supported name pluginPrefix description
              ruleDocTitleFormat Hf) as [title Ht].
  unfold generateRuleHeaderLines, getRuleNoticeLines.
  rewrite Ht. cbn [bindResult rules mbind option_bind].
  rewrite (ruleProperty_own _ _ _ Hl).
  destruct found; cbn [bindResult]; eauto.
Qed.

(** X25.  Only the two config messages depend on the configs URL; an
    empty URL is treated like a missing one, and with a non-empty URL the
    words [configs] and [config] are links to it. *)
Theorem getMessages_url (urlConfigs : option string) (url : string) :
  (forall messageType, getMessages (Some "") messageType
                       = getMessages None messageType) /\
  (forall messageType,
     messageType <> CONFIGS -> messageType <> CONFIG_RECOMMENDED ->
     getMessages urlConfigs messageType = getMessages None messageType) /\
  (url <> "" ->
   Js.includes (getMessages (Some url) CONFIGS)
     ("[configs](" +:+ url +:+ ")") = true /\
   Js.includes (getMessages (Some url) CONFIG_RECOMMENDED)
     ("[config](" +:+ url +:+ ")") = true).
Proof.
  split; [by intros []|]. split; [by intros []|].
  intros Hne.
  assert (Ht : Js.truthy_opt (Some url) = true).
  { unfold Js.truthy_opt, Js.truthy. by destruct (String.eqb_spec url ""). }
  unfold getMessages. rewrite Ht. cbn [interpolate].
  split; apply includes_split.
  - exists (EMOJI_CONFIGS +:+ " This rule is enabled in the following "), ":".
    by rewrite !append_assoc.
  - exists (EMOJI_CONFIG_RECOMMENDED
            +:+ " This rule is enabled in the `recommended` "), ".".
    by rewrite !append_assoc.
Qed.

End Headers.

Section HeadersWitnesses.

Import RuleNotices.

Lemma getRuleNoticeLines_pairs_witness :
  exists messages,
    [""; getMessages (H := Sample.externals) None CONFIG_RECOMMENDED;
     ""; getMessages (H := Sample.externals) None FIXABLE]
    = flat_map (fun message => [""; message]) messages /\
    (length messages <= 4)%nat.
Proof.
  apply (getRuleNoticeLines_pairs (H := Sample.externals) "no-foo" "test"
           Sample.plugin Sample.configs None None).
  reflexivity.
Defined.

Lemma generateRuleHeaderLines_without_meta_witness :
  generateRuleHeaderLines (H := Sample.externals) None "old-rule"
    {| rules := Some [("old-rule", RuleFunction)] |} Sample.configs "test"
    None (Some "name") None
  = Ok ("# `old-rule`" +:+ Sample.nl +:+ Sample.nl
        +:+ "<!-- end rule header -->") /\
  generateRuleHeaderLines (H := Sample.externals) None "toString"
    {| rules := Some [("old-rule", RuleFunction)] |} Sample.configs "test"
    None (Some "name") None
  = Ok ("# `toString`" +:+ Sample.nl +:+ Sample.nl
        +:+ "<!-- end rule header -->") /\
  generateRuleHeaderLines (H := Sample.externals) None "other"
    {| rules := Some [("old-rule", RuleFunction)] |} Sample.configs "test"
    None (Some "name") None
  = Throw "Rule not found" /\
  generateRuleHeaderLines (H := Sample.externals) None "__proto__"
    {| rules := Some [("old-rule", RuleFunction)] |} Sample.configs "test"
    None (Some "name") None
  = Throw "Cannot read properties of undefined (reading 'deprecated')".
Proof.
  split; [|split; [|split]].
  - apply (generateRuleHeaderLines_without_meta (H := Sample.externals) None
             "old-rule" "test" "# `old-rule`" [("old-rule", RuleFunction)]);
      [reflexivity | by left].
  - apply (generateRuleHeaderLines_without_meta (H := Sample.externals) None
             "toString" "test" "# `toString`" [("old-rule", RuleFunction)]);
      [reflexivity|].
    right. split; [reflexivity|]. unfold objectPrototypeMethods.
    rewrite !elem_of_cons. tauto.
  - apply (generateRuleHeaderLines_without_meta (H := Sample.externals) None
             "other" "test" "# `other`" [("old-rule", RuleFunction)]);
      [reflexivity | reflexivity | | done].
    unfold objectPrototypeMethods. rewrite !elem_of_cons, elem_of_nil.
    intros Hin. repeat destruct Hin as [[=]|Hin]. done.
  - apply (generateRuleHeaderLines_without_meta (H := Sample.externals) None
             "__proto__" "test" "# `__proto__`"
             [("old-rule", RuleFunction)]); reflexivity.
Defined.

Lemma deprecated_only_notice_witness :
  getRuleNoticeLines (H := Sample.externals) "no-bar" Sample.plugin
    Sample.configs "test" None None
  = Ok [""; "(x) This rule is deprecated. It was replaced by [no-foo](no-foo.md)."].
Proof.
  apply (deprecated_only_notice (H := Sample.externals) "no-bar" "test"
           {| docs := None;
              fixable := None;
              hasSuggestions := None;
              deprecated := Some true;
              replacedBy := Some ["no-foo"];
              schema := ([] : list string) |});
    reflexivity.
Defined.

Lemma ignored_configs_no_config_notice_witness :
  getRuleNoticeLines (H := Sample.externals) "no-foo" Sample.plugin
    Sample.configs "test" (Some (IncArray ["all"; "recommended"])) None
  = Ok [""; getMessages (H := Sample.externals) None FIXABLE].
Proof.
  apply (ignored_configs_no_config_notice (H := Sample.externals) "no-foo"
           "test"
           {| docs := Some {| description := Some "disallow using FOO.";
                              requiresTypeChecking := None |};
              fixable := Some "other";
              hasSuggestions := None;
              deprecated := None;
              replacedBy := None;
              schema := (["allowList"] : list string) |}).
  - reflexivity.
  - intros config Hin. vm_compute in Hin.
    apply list_elem_of_singleton in Hin as ->.
    apply list_elem_of_In; simpl; auto.
Defined.

Lemma generateRuleHeaderLines_shape_witness :
  exists body,
    Js.join Sample.nl
      ["# Disallow using FOO (`test/no-foo`)";
       "";
       "(ok) This rule is enabled in the `recommended` config.";
       "";
       getMessages (H := Sample.externals) None FIXABLE;
       "";
       "<!-- end rule header -->"]
    = body +:+ String "010" "" +:+ String "010" ""
      +:+ "<!-- end rule header -->" /\
    Js.startsWith body "# " = true.
Proof.
  apply (generateRuleHeaderLines_shape (H := Sample.externals)
           (Some "disallow using FOO.") "no-foo" "test" _ Sample.plugin
           Sample.configs None None None).
  reflexivity.
Defined.

Lemma generateRuleHeaderLines_registered_witness :
  exists header,
    generateRuleHeaderLines (H := Sample.externals) None "no-bar"
      Sample.plugin Sample.configs "test" None (Some "desc") None
    = Ok header.
Proof.
  apply (generateRuleHeaderLines_registered (H := Sample.externals) None
           "no-bar" "test" Sample.ruleNoBar).
  - apply list_elem_of_In; simpl; auto.
  - apply list_elem_of_In; simpl; auto.
Defined.

Lemma getMessages_url_witness :
  Js.includes
    (getMessages (H := Sample.externals) (Some "https://example.com/configs")
       CONFIGS)
    "[configs](https://example.com/configs)" = true /\
  Js.includes
    (getMessages (H := Sample.externals) (Some "https://example.com/configs")
       CONFIG_RECOMMENDED)
    "[config](https://example.com/configs)" = true.
Proof.
  by apply (getMessages_url (H := Sample.externals) None
              "https://example.com/configs").
Defined.

End HeadersWitnesses.

(** ** More on the header merge *)

(** Membership of a string in an explicit array. *)
Ltac in_array := apply list_elem_of_In; simpl; auto 10.
Ltac not_in_array :=
  let Hin := fresh "Hin" in
  intros Hin;
  repeat (apply elem_of_cons in Hin as [Hin|Hin]; [done|]);
  by apply elem_of_nil in Hin.

Section MergeFrame.

Import Markdown.

Implicit Types lines header newHeaderLines : list string.
Implicit Types marker : string.

(** What follows the new header in the merged document does not depend
    on the header. *)
Lemma merge_body lines marker :
  exists body,
    forall newHeaderLines,
      replaceOrCreateHeader lines newHeaderLines marker
      = newHeaderLines ++ body.
Proof. unfold replaceOrCreateHeader, Js.splice0. eauto. Qed.

(** X10.  In a document that has the marker, the merge replaces the lines
    up to and including the first marker line, and keeps every line after
    it, whatever the first line of the document is. *)
Theorem replaceOrCreateHeader_after_marker lines newHeaderLines marker :
  marker ∈ lines ->
  replaceOrCreateHeader lines newHeaderLines marker
  = newHeaderLines ++ drop (S (Z.to_nat (Js.indexOf lines marker))) lines.
Proof.
  intros Hin.
  assert (Hi : Js.indexOf lines marker <> -1)
    by (intros Hi; by apply indexOf_absent in Hi).
  destruct (indexOf_split lines marker Hi) as (pre & post & -> & Hpre & ->).
  rewrite merge_with_marker by done. f_equal.
  rewrite Nat2Z.id, (cons_middle marker pre post), app_assoc.
  rewrite drop_app_length'; [done|]. rewrite length_app. simpl. lia.
Qed.

Lemma replaceOrCreateHeader_after_marker_witness :
  let marker := "<!-- end rule header -->" in
  replaceOrCreateHeader ["# old"; "notice"; marker; ""; "# Not a title"]
    ["# new"; marker] marker
  = ["# new"; marker] ++ [""; "# Not a title"].
Proof.
  intros marker.
  apply (replaceOrCreateHeader_after_marker
           ["# old"; "notice"; marker; ""; "# Not a title"]).
  in_array.
Defined.

(** X11.  A document with no marker and no leading title, the empty
    document included, gets the header put in front and keeps all its
    lines. *)
Theorem replaceOrCreateHeader_prepends lines newHeaderLines marker :
  marker ∉ lines ->
  (forall l0 rest, lines = l0 :: rest -> Js.startsWith l0 "# " = false) ->
  replaceOrCreateHeader lines newHeaderLines marker = newHeaderLines ++ lines.
Proof.
  intros Hn Ht. rewrite merge_without_marker by done.
  destruct lines as [|l0 rest]; [done|]. by rewrite (Ht l0 rest).
Qed.

Lemma replaceOrCreateHeader_prepends_witness :
  let marker := "<!-- end rule header -->" in
  replaceOrCreateHeader ["#no space"; "text"] ["# new"; marker] marker
  = ["# new"; marker] ++ ["#no space"; "text"] /\
  replaceOrCreateHeader [] ["# new"; marker] marker = ["# new"; marker] ++ [].
Proof.
  intros marker. split.
  - apply (replaceOrCreateHeader_prepends ["#no space"; "text"]).
    + not_in_array.
    + by intros l0 rest [= <- <-].
  - apply (replaceOrCreateHeader_prepends []).
    + not_in_array.
    + by intros l0 rest [=].
Defined.

(** X12.  The merged document is the new header followed by a suffix of
    the original lines: the merge never invents, reorders or edits a
    line of the body. *)
Theorem replaceOrCreateHeader_keeps_suffix lines newHeaderLines marker :
  exists n,
    replaceOrCreateHeader lines newHeaderLines marker
    = newHeaderLines ++ drop n lines.
Proof.
  unfold replaceOrCreateHeader, Js.splice0.
  destruct (_ && _).
  - eexists. by rewrite app_nil_l, drop_drop.
  - by eexists.
Qed.

(** X13.  The last header wins: merging a header into a document that
    was merged before (with a header ending with the marker) gives what
    merging it into the original document gives. *)
Theorem replaceOrCreateHeader_last_wins lines header newHeaderLines marker :
  marker ∉ header ->
  replaceOrCreateHeader
    (replaceOrCreateHeader lines (header ++ [marker]) marker)
    newHeaderLines marker
  = replaceOrCreateHeader lines newHeaderLines marker.
Proof.
  intros Hn. destruct (merge_body lines marker) as [body Hb].
  rewrite (Hb (header ++ [marker])), (Hb newHeaderLines).
  rewrite <- (app_assoc header [marker] body).
  by apply merge_with_marker.
Qed.

Lemma replaceOrCreateHeader_last_wins_witness :
  let marker := "<!-- end rule header -->" in
  replaceOrCreateHeader
    (replaceOrCreateHeader ["# old"; ""; "text"] (["# first"; ""] ++ [marker])
       marker)
    ["# second"; "notice"; marker] marker
  = replaceOrCreateHeader ["# old"; ""; "text"]
      ["# second"; "notice"; marker] marker.
Proof.
  intros marker.
  apply (replaceOrCreateHeader_last_wins ["# old"; ""; "text"]
           ["# first"; ""]).
  not_in_array.
Defined.

End MergeFrame.

(** ** More on the section locator *)

Section LocatorShape.

Import Markdown.

Context `{Externals}.

(** X14.  For a phrase written in the embedded syntax (ASCII, without
    anchors, escapes, groups, classes, braces or alternation), a
    section heading that is found is a piece of the markdown text that
    starts with [##] and ends with a newline. *)
Theorem findSectionHeader_shape (markdown str m : string) :
  embeddedPhrase str ->
  findSectionHeader markdown str = Ok (Some m) ->
  String.prefix "##" m = true /\
  (exists m', m = m' +:+ String "010" "") /\
  Js.includes markdown m = true.
Proof.
  intros Hemb (regexp & Hre & Hm)%findSectionHeader_returns.
  symmetry in Hm. apply selectSectionHeader_elem in Hm.
  destruct (sectionMatch_shape _ _ _ _ Hemb Hre Hm) as (Hs & He & Hp).
  split; [by apply prefix_split|].
  split; [done|]. by apply includes_split.
Qed.

(** X15.  For a phrase written in the embedded syntax, nothing is found
    in a text without [##], and nothing in a text without a newline: a
    text that is one heading line with no newline after it has no
    section.  (When the pattern of the phrase is a [SyntaxError], the
    locator throws on every text.) *)
Theorem findSectionHeader_none (markdown str : string) :
  embeddedPhrase str ->
  Js.includes markdown "##" = false \/
  Js.includes markdown (String "010" "") = false ->
  findSectionHeader markdown str = Ok None \/
  exists message, findSectionHeader markdown str = Throw message.
Proof.
  intros Hemb Hno.
  destruct (newRegExp (sectionSource str)) as [regexp|message] eqn:Hre.
  2:{ right. exists message. by apply findSectionHeader_throws. }
  left. apply findSectionHeader_returns. exists regexp. split; [done|].
  symmetry. apply selectSectionHeader_none.
  destruct (matchAll regexp markdown) as [|m matches] eqn:E; [done|].
  exfalso.
  assert (Hin : m ∈ matchAll regexp markdown) by (rewrite E; left).
  destruct (sectionMatch_shape _ _ _ _ Hemb Hre Hin)
    as ([x ->] & [m' Hm] & (pre & post & Hmd)).
  destruct Hno as [Hno|Hno].
  - assert (Js.includes markdown "##" = true); [|congruence].
    apply includes_split. exists pre, (x +:+ post).
    by rewrite Hmd, append_assoc.
  - assert (Js.includes markdown (String "010" "") = true); [|congruence].
    apply includes_split. exists (pre +:+ m'), post.
    by rewrite Hmd, Hm, !append_assoc.
Qed.

End LocatorShape.

Section LocatorShapeWitnesses.

Import Markdown.

Lemma findSectionHeader_shape_witness :
  let nl := String "010" "" in
  let m := "### All options" +:+ nl in
  String.prefix "##" m = true /\
  (exists m', m = m' +:+ String "010" "") /\
  Js.includes ("Text ### All options" +:+ nl +:+ "more") m = true.
Proof.
  intros nl m.
  apply (findSectionHeader_shape (H := Sample.externals)
           ("Text ### All options" +:+ nl +:+ "more") "options?");
    reflexivity.
Defined.

Lemma findSectionHeader_none_witness :
  findSectionHeader (H := Sample.externals)
    ("# no-foo" +:+ String "010" "Options") "Options"
  = Ok None /\
  findSectionHeader (H := Sample.externals) "## Options" "Options"
  = Ok None.
Proof.
  split.
  - destruct (findSectionHeader_none (H := Sample.externals)
                ("# no-foo" +:+ String "010" "Options") "Options")
      as [Hnone|[message Hthrows]];
      [reflexivity | by left | exact Hnone | discriminate Hthrows].
  - destruct (findSectionHeader_none (H := Sample.externals)
                "## Options" "Options")
      as [Hnone|[message Hthrows]];
      [reflexivity | by right | exact Hnone | discriminate Hthrows].
Defined.

End LocatorShapeWitnesses.

Section LocatorPhrase.

Import Markdown.

Context `{Externals}.

(** A change of the pattern characters that keeps what each of them
    folds to, and keeps the syntax characters. *)
Section Folded.

Variable f : ascii -> ascii.

Hypothesis f_canonical : forall c, canonicalize (f c) = canonicalize c.
Hypothesis f_quantifier :
  forall c, isQuantifierChar (f c) = isQuantifierChar c.
Hypothesis f_star : forall c, (f c =? "*")%char = (c =? "*")%char.
Hypothesis f_plus : forall c, (f c =? "+")%char = (c =? "+")%char.
Hypothesis f_mark : forall c, (f c =? "?")%char = (c =? "?")%char.
Hypothesis f_dot : forall c, (f c =? ".")%char = (c =? ".")%char.
Hypothesis f_outside : forall c, outsideFragment (f c) = outsideFragment c.

Hypothesis f_hash : (f "#" = "#")%char.
Hypothesis f_space : (f " " = " ")%char.
Hypothesis f_newline : (f "010" = "010")%char.

Lemma sameStep_folded (c : ascii) (q : Quantifier) :
  sameStep (atomOf (f c), q) (atomOf c, q).
Proof.
  split; [done|]. intros s. cbn [fst]. unfold atomOf. rewrite f_dot.
  destruct (Ascii.eqb c "."); [done|].
  cbn [stepAtom]. by rewrite f_canonical.
Qed.

Lemma quantifierOf_folded (q : ascii) (greedy : bool) :
  quantifierOf (f q) greedy = quantifierOf q greedy.
Proof. unfold quantifierOf. by rewrite f_star, f_plus. Qed.

Lemma fmap_cons_agree (t1 t2 : Term) (p1 p2 : option (list Term)) :
  sameStep t1 t2 ->
  option_Forall2 (Forall2 sameStep) p1 p2 ->
  option_Forall2 (Forall2 sameStep) (cons t1 <$> p1) (cons t2 <$> p2).
Proof.
  intros Ht [terms1 terms2 Hterms|]; constructor. by constructor.
Qed.

(** The folded source parses like the source. *)
Lemma parseTerms_folded (n : nat) (source : string) :
  (String.length source <= n)%nat ->
  option_Forall2 (Forall2 sameStep)
    (parseTerms (RuleNotices.mapString f source)) (parseTerms source).
Proof.
  revert source. induction n as [|n IH]; intros source Hlen.
  { destruct source; [|simpl in Hlen; lia]. repeat constructor. }
  destruct source as [|c source]; [repeat constructor|].
  cbn [RuleNotices.mapString parseTerms]. rewrite f_quantifier.
  destruct (isQuantifierChar c); [constructor|].
  destruct source as [|q source].
  { cbn [RuleNotices.mapString]. repeat constructor.
    apply sameStep_folded. }
  cbn [RuleNotices.mapString]. rewrite f_quantifier.
  destruct (isQuantifierChar q).
  - rewrite quantifierOf_folded.
    destruct source as [|l source].
    { cbn [RuleNotices.mapString]. repeat constructor.
      apply sameStep_folded. }
    cbn [RuleNotices.mapString]. rewrite f_mark.
    destruct (Ascii.eqb l "?").
    + rewrite quantifierOf_folded.
      apply fmap_cons_agree; [apply sameStep_folded|].
      apply IH. simpl in Hlen. lia.
    + apply fmap_cons_agree; [apply sameStep_folded|].
      apply (IH (String l source)). simpl in Hlen |- *. lia.
  - apply fmap_cons_agree; [apply sameStep_folded|].
    apply (IH (String q source)). simpl in Hlen |- *. lia.
Qed.

Lemma anyChar_folded (source : string) :
  anyChar outsideFragment (RuleNotices.mapString f source)
  = anyChar outsideFragment source.
Proof.
  induction source as [|c source IH]; [done|].
  cbn [RuleNotices.mapString anyChar]. by rewrite f_outside, IH.
Qed.

Lemma mapString_append (s t : string) :
  RuleNotices.mapString f (s +:+ t)
  = RuleNotices.mapString f s +:+ RuleNotices.mapString f t.
Proof.
  induction s as [|c s IH]; [done|].
  change (String c s +:+ t) with (String c (s +:+ t)).
  cbn [RuleNotices.mapString]. rewrite IH. reflexivity.
Qed.

Lemma sectionSource_folded (str : string) :
  sectionSource (RuleNotices.mapString f str)
  = RuleNotices.mapString f (sectionSource str).
Proof.
  assert (Hstar : (f "*" = "*")%char).
  { apply Ascii.eqb_eq. by rewrite f_star. }
  assert (Hdot : (f "." = ".")%char).
  { apply Ascii.eqb_eq. by rewrite f_dot. }
  unfold sectionSource. rewrite !mapString_append.
  cbn [RuleNotices.mapString].
  by rewrite f_hash, f_space, f_newline, Hstar, Hdot.
Qed.

End Folded.

(** Terms that match alike give the same matches. *)
Lemma matchOne_ext (a1 a2 : Atom) (k1 k2 : Continuation) :
  (forall s, stepAtom a1 s = stepAtom a2 s) ->
  (forall s, k1 s = k2 s) ->
  forall s, matchOne a1 k1 s = matchOne a2 k2 s.
Proof.
  intros Ha Hk s. unfold matchOne. rewrite Ha.
  destruct (stepAtom a2 s) as [[u s']|]; [|done]. by rewrite Hk.
Qed.

Lemma matchRepeat_ext (a1 a2 : Atom) (greedy : bool)
    (k1 k2 : Continuation) (steps : nat) :
  (forall s, stepAtom a1 s = stepAtom a2 s) ->
  (forall s, k1 s = k2 s) ->
  forall s, matchRepeat a1 greedy k1 steps s
            = matchRepeat a2 greedy k2 steps s.
Proof.
  intros Ha Hk. induction steps as [|steps IH]; intros s; [apply Hk|].
  cbn [matchRepeat].
  by rewrite (matchOne_ext a1 a2 _ _ Ha IH s), Hk.
Qed.

Lemma matchTerm_ext (t1 t2 : Term) (k1 k2 : Continuation) :
  sameStep t1 t2 ->
  (forall s, k1 s = k2 s) ->
  forall s, matchTerm t1 k1 s = matchTerm t2 k2 s.
Proof.
  destruct t1 as [a1 q1], t2 as [a2 q2]. intros [Hq Ha] Hk s.
  cbn [fst snd] in Hq, Ha. subst q2.
  destruct q1 as [|greedy|greedy|greedy]; unfold matchTerm.
  - by apply matchOne_ext.
  - by apply matchRepeat_ext.
  - apply matchOne_ext; [done|]. intros s'. by apply matchRepeat_ext.
  - by rewrite (matchOne_ext a1 a2 k1 k2 Ha Hk s), Hk.
Qed.

Lemma matchHere_ext (terms1 terms2 : list Term) :
  Forall2 sameStep terms1 terms2 ->
  forall s, matchHere terms1 s = matchHere terms2 s.
Proof.
  induction 1 as [|t1 t2 terms1 terms2 Ht _ IH]; intros s; [done|].
  cbn [matchHere]. by apply matchTerm_ext.
Qed.

Lemma matchAllFrom_ext (terms1 terms2 : list Term) :
  (forall s, matchHere terms1 s = matchHere terms2 s) ->
  forall skip s,
    matchAllFrom terms1 skip s = matchAllFrom terms2 skip s.
Proof.
  intros Hre skip s. revert skip.
  induction s as [|c s IH]; intros skip; cbn [matchAllFrom].
  - by rewrite Hre.
  - destruct skip; [|apply IH]. rewrite Hre.
    destruct (matchHere terms2 (String c s)); by rewrite IH.
Qed.

(** The locator on a folded phrase. *)
Lemma findSectionHeader_folded (f : ascii -> ascii) (markdown str : string)
    (r : option string) :
  (forall c, canonicalize (f c) = canonicalize c) ->
  (forall c, isQuantifierChar (f c) = isQuantifierChar c) ->
  (forall c, (f c =? "*")%char = (c =? "*")%char) ->
  (forall c, (f c =? "+")%char = (c =? "+")%char) ->
  (forall c, (f c =? "?")%char = (c =? "?")%char) ->
  (forall c, (f c =? ".")%char = (c =? ".")%char) ->
  (forall c, outsideFragment (f c) = outsideFragment c) ->
  (f "#" = "#")%char -> (f " " = " ")%char -> (f "010" = "010")%char ->
  embeddedPhrase str ->
  findSectionHeader markdown str = Ok r ->
  embeddedPhrase (RuleNotices.mapString f str) /\
  findSectionHeader markdown (RuleNotices.mapString f str) = Ok r.
Proof.
  intros H1 H2 H3 H4 H5 H6 H7 H8 H9 H10 Hemb Hfind.
  assert (Hemb' : embeddedPhrase (RuleNotices.mapString f str)).
  { unfold embeddedPhrase in *.
    by rewrite (sectionSource_folded f H3 H6 H8 H9 H10),
      (anyChar_folded f H7). }
  split; [done|]. revert Hfind.
  unfold findSectionHeader, newRegExp. unfold embeddedPhrase in Hemb, Hemb'.
  rewrite Hemb, Hemb'.
  rewrite (sectionSource_folded f H3 H6 H8 H9 H10).
  destruct (parseTerms_folded f H1 H2 H3 H4 H5 H6
              (String.length (sectionSource str)) (sectionSource str))
    as [terms1 terms2 Hterms|]; [lia| |done].
  cbn [bindResult matchAll]. intros [= <-]. do 2 f_equal.
  by rewrite (matchAllFrom_ext terms1 terms2 (matchHere_ext _ _ Hterms)).
Qed.

(** X16.  For a phrase written in the embedded syntax (so a phrase in
    ASCII, without escapes), the phrase is matched ignoring its case:
    the upper-cased and the lower-cased phrase find what the phrase
    itself finds. *)
Theorem findSectionHeader_phrase_case (markdown str : string)
    (r : option string) :
  embeddedPhrase str ->
  findSectionHeader markdown str = Ok r ->
  findSectionHeader markdown (RuleNotices.toUpperCase str) = Ok r /\
  findSectionHeader markdown (RuleNotices.toLowerCase str) = Ok r.
Proof.
  intros Hemb Hr. split.
  - apply findSectionHeader_folded; try done;
      intros c; destruct c as [[] [] [] [] [] [] [] []]; reflexivity.
  - apply findSectionHeader_folded; try done;
      intros c; destruct c as [[] [] [] [] [] [] [] []]; reflexivity.
Qed.

Lemma head_insertByLength (a : string) (sorted : list string) :
  head (insertByLength a sorted)
  = Some match sorted with
         | [] => a
         | b :: _ =>
             if (Z.of_nat (Js.stringLength a) - Z.of_nat (Js.stringLength b)
                 <=? 0)
             then a else b
         end.
Proof.
  destruct sorted as [|b sorted]; [done|]. cbn [insertByLength].
  by destruct (_ <=? 0).
Qed.

Lemma sortByLength_first_shortest (pre post : list string) (m : string) :
  (forall x, x ∈ pre -> (Js.stringLength m < Js.stringLength x)%nat) ->
  (forall x, x ∈ post -> (Js.stringLength m <= Js.stringLength x)%nat) ->
  head (sortByLength (pre ++ m :: post)) = Some m.
Proof.
  intros Hpre Hpost. induction pre as [|p pre IH].
  - cbn [app sortByLength foldr]. rewrite head_insertByLength.
    fold (sortByLength post).
    destruct (sortByLength post) as [|b sorted] eqn:E; [done|].
    assert (Hb : b ∈ post) by (apply sortByLength_elem; rewrite E; left).
    specialize (Hpost b Hb).
    by destruct (Z.leb_spec
                   (Z.of_nat (Js.stringLength m)
                    - Z.of_nat (Js.stringLength b)) 0);
      [|lia].
  - cbn [app sortByLength foldr]. rewrite head_insertByLength.
    fold (sortByLength (pre ++ m :: post)).
    assert (IH' : head (sortByLength (pre ++ m :: post)) = Some m).
    { apply IH. intros x Hx. apply Hpre. by right. }
    destruct (sortByLength (pre ++ m :: post)) as [|b sorted];
      simplify_eq/=.
    assert (Hp : (Js.stringLength m < Js.stringLength p)%nat)
      by (apply Hpre; left).
    by destruct (Z.leb_spec
                   (Z.of_nat (Js.stringLength p)
                    - Z.of_nat (Js.stringLength m)) 0);
      [lia|].
Qed.

(** X17.  The tie-break keeps document order: of the matches of least
    length, counted in UTF-16 code units, the one that comes first in
    the text is returned. *)
Theorem findSectionHeader_first_shortest (markdown str m : string)
    (regexp : RegExp) (pre post : list string) :
  newRegExp (sectionSource str) = Ok regexp ->
  matchAll regexp markdown = pre ++ m :: post ->
  (forall x, x ∈ pre -> (Js.stringLength m < Js.stringLength x)%nat) ->
  (forall x, x ∈ post -> (Js.stringLength m <= Js.stringLength x)%nat) ->
  findSectionHeader markdown str = Ok (Some m).
Proof.
  intros Hre Hm Hpre Hpost.
  apply findSectionHeader_returns. exists regexp. split; [done|].
  unfold selectSectionHeader. rewrite Hm.
  destruct (Z.eqb_spec (Z.of_nat (length (pre ++ m :: post))) 0) as [E|_].
  { rewrite length_app in E. simpl in E. lia. }
  destruct (Z.eqb_spec (Z.of_nat (length (pre ++ m :: post))) 1) as [E|_].
  - destruct pre as [|p pre]; [done|].
    rewrite length_app in E. simpl in E. lia.
  - symmetry. by apply sortByLength_first_shortest.
Qed.

End LocatorPhrase.

Section LocatorPhraseWitnesses.

Import Markdown.

Lemma findSectionHeader_phrase_case_witness :
  let nl := String "010" "" in
  let markdown := "## Rule options" +:+ nl +:+ "## OPTION" +:+ nl in
  findSectionHeader (H := Sample.externals) markdown "OPTIONS?"
  = Ok (Some ("## OPTION" +:+ nl)) /\
  findSectionHeader (H := Sample.externals) markdown "options?"
  = Ok (Some ("## OPTION" +:+ nl)).
Proof.
  intros nl markdown.
  apply (findSectionHeader_phrase_case (H := Sample.externals) markdown
           "Options?");
    reflexivity.
Defined.

Lemma findSectionHeader_first_shortest_witness :
  let nl := String "010" "" in
  findSectionHeader (H := Sample.externals)
    ("## Rule options" +:+ nl +:+ "## Options ééé" +:+ nl
     +:+ "## Options abc" +:+ nl)
    "options"
  = Ok (Some ("## Options ééé" +:+ nl)).
Proof.
  intros nl.
  eapply (findSectionHeader_first_shortest (H := Sample.externals) _ _ _ _
            ["## Rule options" +:+ nl] ["## Options abc" +:+ nl]).
  - reflexivity.
  - reflexivity.
  - intros x ->%list_elem_of_singleton. vm_compute. lia.
  - intros x ->%list_elem_of_singleton. vm_compute. lia.
Defined.

End LocatorPhraseWitnesses.

(** ** More on the checks and on a run *)

Section Checks.

Import Generator.

Context `{Externals}.

(** X18.  With [expected] true, [expectContent] leaves the world as it is
    exactly when the contents are some text, then the expected content,
    then some text; otherwise it changes it (by a diagnostic). *)
Theorem expectContent_mentioned (ruleName contents content : string)
    (w : World) :
  expectContent ruleName contents content true w = w <->
  exists pre post, contents = pre +:+ content +:+ post.
Proof.
  rewrite <- includes_split. unfold expectContent.
  destruct (Js.includes contents content); simpl; [done|].
  split; [|done]. intros Hw.
  apply (f_equal (fun w => length (stderr w))) in Hw. simpl in Hw.
  rewrite length_app in Hw. simpl in Hw. lia.
Qed.

(** A loop of section checks stops at the first section whose pattern
    is a [SyntaxError]: the error propagates, with the diagnostics of
    the sections before it reported. *)
Lemma forOf_sections_throws (name contents : string) (expected : bool)
    (pre post : list string) (section : string) (w : World) :
  Forall validPhrase pre ->
  invalidPhrase section ->
  exists message w' n,
    forOf (pre ++ section :: post)
      (fun section w =>
         expectSectionHeader name contents [section] expected w) w
    = Aborted message w' /\
    emits w w' n.
Proof.
  intros Hpre [message Hbad]. revert w.
  induction Hpre as [|first pre Hfirst _ IH]; intros w; cbn [app forOf].
  - unfold expectSectionHeader. cbn [someSectionHeader].
    rewrite (proj2 (findSectionHeader_throws contents section message) Hbad).
    cbn [bindResult andThen]. exists message, w, 0%nat. split; [done|].
    apply emits_refl.
  - destruct (expectSectionHeader_one name contents first expected w Hfirst)
      as (w1 & -> & H1).
    cbn [andThen]. destruct (IH w1) as (message' & w' & n & -> & Hn).
    exists message', w'. eexists. split; [done|]. by eapply emits_trans.
Qed.

(** X19.  With section names whose patterns [new RegExp] accepts, the
    required-sections check returns, having reported one diagnostic for
    every required section that is not found, and the
    disallowed-sections check one for every disallowed section that is
    found.  A section name whose pattern is a [SyntaxError] makes the
    check throw instead, after the diagnostics of the sections before
    it. *)
Theorem section_checks_count (options : option Options)
    (name contents : string) (w : World) :
  let required := default [] (opt options ruleDocSectionInclude) in
  let disallowed := default [] (opt options ruleDocSectionExclude) in
  (Forall validPhrase required ->
   exists w',
     checkRequiredSections options name contents w = Completed w' /\
     emits w w'
       (length
          (List.filter (fun section => negb (sectionFound contents section))
             required))) /\
  (Forall validPhrase disallowed ->
   exists w',
     checkDisallowedSections options name contents w = Completed w' /\
     emits w w' (length (List.filter (sectionFound contents) disallowed))) /\
  (forall pre section post,
     required = pre ++ section :: post ->
     Forall validPhrase pre ->
     invalidPhrase section ->
     exists message w' n,
       checkRequiredSections options name contents w = Aborted message w' /\
       emits w w' n).
Proof.
  intros required disallowed.
  unfold checkRequiredSections, checkDisallowedSections.
  fold required disallowed. split; [|split].
  - intros Hall.
    rewrite <- (proj1 (count_filter (sectionFound contents) _)).
    by apply forOf_sections_completes.
  - intros Hall.
    rewrite <- (proj2 (count_filter (sectionFound contents) _)).
    by apply forOf_sections_completes.
  - intros pre section post -> Hpre Hbad.
    by apply forOf_sections_throws.
Qed.

End Checks.

Section Run.

Import Generator.

Context `{Externals}.

Variables (path : string) (options : option Options).

Let plugin := loadPlugin path.
Let pluginPrefix := getPluginPrefix path.
Let configsToRules := resolveConfigsToRules plugin.
Let run := updateRuleDocs path options plugin configsToRules pluginPrefix.
Let readme := path_resolve path "README.md".

(** How a run of [generate] ends: it throws and leaves the world as it
    was, or it returns with the README rewritten and nothing else
    changed. *)
Lemma generate_outcome (w : World) :
  (exists message, generate path options w = Aborted message w) \/
  (exists contents,
     existsSync readme w = true /\
     generate path options w
     = Completed
         {| files := <[readme := contents]> (files w);
            stderr := stderr w;
            exitCode := exitCode w |}).
Proof.
  unfold generate. fold plugin pluginPrefix configsToRules readme.
  destruct (rules plugin) as [entries|]; [|left; eauto].
  destruct (run_outcome path options (map gatherDetails entries) w)
    as [E|[message E]];
    cbv zeta in E; fold plugin pluginPrefix configsToRules in E;
    rewrite E; cbn [andThen]; [|left; eauto].
  destruct (existsSync readme w) eqn:Hex; cbn [negb]; [|left; eauto].
  right. cbn [writeFileSync]. eauto.
Qed.

(** X20.  A run of [generate] ends, and neither creates nor deletes a
    file: in the world it leaves, whether it returned or threw, the
    paths that exist are those that existed before. *)
Theorem generate_keeps_paths (w : World) :
  exists w',
    endsIn (generate path options w) w' /\
    dom (files w') = dom (files w).
Proof.
  destruct (generate_outcome w) as [[message E]|(contents & Hex & E)].
  - exists w. split; [right; eauto | done].
  - eexists. split; [left; exact E|]. cbn [files].
    apply bool_decide_eq_true in Hex as [old Hold].
    rewrite dom_insert_L.
    apply subseteq_union_1_L, singleton_subseteq_l, elem_of_dom. eauto.
Qed.

(** X21.  A run of [generate] that throws leaves every file as it was,
    and a run that returns leaves every file but the README as it
    was. *)
Theorem generate_frame (w : World) :
  exists w',
    endsIn (generate path options w) w' /\
    ((exists message, generate path options w = Aborted message w') ->
     files w' = files w) /\
    (forall p, p <> readme -> files w' !! p = files w !! p).
Proof.
  destruct (generate_outcome w) as [[message E]|(contents & Hex & E)].
  - exists w. split; [right; eauto | done].
  - eexists. split; [left; exact E|]. split.
    + intros [message E']. congruence.
    + intros p Hp. cbn [files]. by rewrite lookup_insert_ne.
Qed.

(** X22.  The checks of a rule doc are never reached in a run of
    [generate]: a run prints no diagnostic and leaves the exit code as
    it found it. *)
Theorem generate_reports_nothing (w : World) :
  exists w',
    endsIn (generate path options w) w' /\
    stderr w' = stderr w /\
    exitCode w' = exitCode w.
Proof.
  destruct (generate_outcome w) as [[message E]|(contents & Hex & E)].
  - exists w. split; [right; eauto | done].
  - eexists. split; [left; exact E | done].
Qed.

(** X23.  A function-style rule is never deprecated for [generate]: when
    it comes first and has no doc file, the run throws before anything is
    written or reported. *)
Theorem functionStyle_rule_needs_doc
    (name : string) (rest : list (string * RuleModule Schema)) (w : World) :
  rules plugin = Some ((name, RuleFunction) :: rest) ->
  existsSync (pathToDocOf path name) w = false ->
  generate path options w
  = Aborted
      ("Could not find rule doc: "
       +:+ path_relative (getPluginRoot path) (pathToDocOf path name)) w.
Proof.
  intros Hr Hex. unfold generate. fold plugin. rewrite Hr.
  cbn [map gatherDetails updateRuleDocs rd_name rd_deprecated].
  by rewrite Hex.
Qed.

(** X26.  In a run of [generate], the first rule whose doc file exists
    ends the run: when its header is generated, the header merge is
    called with the text of the doc and the header text, two strings,
    and throws the [TypeError] of calling [splice] on a string; nothing
    is written. *)
Theorem generate_merge_throws
    (entries : list (string * RuleModule Schema))
    (pre post : list (RuleDetails Schema)) (d : RuleDetails Schema)
    (newHeaderLines : string) (w : World) :
  rules plugin = Some entries ->
  map gatherDetails entries = pre ++ d :: post ->
  (forall d', d' ∈ pre ->
              existsSync (pathToDocOf path (rd_name d')) w = false /\
              rd_deprecated d' = true) ->
  existsSync (pathToDocOf path (rd_name d)) w = true ->
  newHeaderLinesOf options plugin configsToRules pluginPrefix d
  = Ok newHeaderLines ->
  generate path options w = Aborted "lines.splice is not a function" w.
Proof.
  intros Hr Hd Hpre Hex Hh.
  unfold generate. fold plugin pluginPrefix configsToRules.
  rewrite Hr, Hd. fold run.
  assert (Hrun : run (pre ++ d :: post) w
                 = Aborted "lines.splice is not a function" w).
  { subst run configsToRules pluginPrefix plugin. clear Hd.
    induction pre as [|d' pre IH]; cbn [app updateRuleDocs].
    - rewrite Hex. cbn [negb]. by rewrite updateRuleDoc_aborts, Hh.
    - destruct (Hpre d') as [-> ->]; [left|]. cbn [negb].
      apply IH. intros d'' Hin. apply Hpre. by right. }
  by rewrite Hrun.
Qed.

(** X27.  A run of [generate] returns only when the README exists and
    every rule of the plugin is deprecated and has no doc file. *)
Theorem generate_completes_only_without_docs
    (entries : list (string * RuleModule Schema)) (w w' : World) :
  rules plugin = Some entries ->
  generate path options w = Completed w' ->
  existsSync readme w = true /\
  forall d, d ∈ map gatherDetails entries ->
            existsSync (pathToDocOf path (rd_name d)) w = false /\
            rd_deprecated d = true.
Proof.
  intros Hr. unfold generate. fold plugin pluginPrefix configsToRules readme.
  rewrite Hr. fold run.
  destruct (run (map gatherDetails entries) w) as [w1|message w1] eqn:E;
    cbn [andThen]; [|done].
  apply run_completed in E as [-> Hall].
  destruct (existsSync readme w); [|done]. by intros _.
Qed.

End Run.

Section RunWitnesses.

Import Generator.

Lemma section_checks_count_witness :
  (exists w',
     checkRequiredSections (H := Sample.externals) Sample.optionsSections
       "no-foo" Sample.plainDoc Sample.world
     = Completed w' /\
     emits Sample.world w' 1) /\
  (exists w',
     checkDisallowedSections (H := Sample.externals) Sample.optionsSections
       "no-foo" Sample.plainDoc Sample.world
     = Completed w' /\
     emits Sample.world w' 0) /\
  (exists message w' n,
     checkRequiredSections (H := Sample.externals)
       (Some {| ruleDocSectionInclude := Some ["Usage"; "C++"; "Notes"];
                ruleDocSectionExclude := None;
                ruleDocTitleFormat := None;
                urlConfigs := None |})
       "no-foo" Sample.plainDoc Sample.world
     = Aborted message w' /\
     emits Sample.world w' n).
Proof.
  split; [|split].
  - destruct (section_checks_count (H := Sample.externals)
                Sample.optionsSections "no-foo" Sample.plainDoc Sample.world)
      as (Hrequired & _ & _).
    apply Hrequired. repeat constructor. by eexists.
  - destruct (section_checks_count (H := Sample.externals)
                Sample.optionsSections "no-foo" Sample.plainDoc Sample.world)
      as (_ & Hdisallowed & _).
    apply Hdisallowed. repeat constructor. by eexists.
  - destruct (section_checks_count (H := Sample.externals)
                (Some {| ruleDocSectionInclude :=
                           Some ["Usage"; "C++"; "Notes"];
                         ruleDocSectionExclude := None;
                         ruleDocTitleFormat := None;
                         urlConfigs := None |})
                "no-foo" Sample.plainDoc Sample.world)
      as (_ & _ & Hthrows).
    apply (Hthrows ["Usage"] "C++" ["Notes"]); [reflexivity| |].
    + repeat constructor. by eexists.
    + by eexists.
Defined.

Lemma generate_frame_witness :
  exists w',
    generate (H := DeprecatedSample.externalsOnlyDeprecated) "p" None
      Sample.world
    = Completed w' /\
    files w' !! "p/docs/rules/no-foo.md"
    = Some ("# old title" +:+ Sample.nl +:+ Sample.nl +:+ "Some text."
            +:+ Sample.nl) /\
    files w' !! "p/README.md"
    = Some ("# plugin" +:+ Sample.nl +:+ "rules" +:+ Sample.nl).
Proof.
  destruct (generate_frame (H := DeprecatedSample.externalsOnlyDeprecated)
              "p" None Sample.world)
    as (w' & Hends & _ & Hframe).
  exists w'.
  assert (Hrun : exists w1,
             generate (H := DeprecatedSample.externalsOnlyDeprecated) "p"
               None Sample.world
             = Completed w1 /\
             files w1 !! "p/README.md"
             = Some ("# plugin" +:+ Sample.nl +:+ "rules" +:+ Sample.nl)).
  { eexists. split; reflexivity. }
  destruct Hrun as (w1 & Hrun & Hreadme).
  assert (w' = w1) as ->.
  { destruct Hends as [E|[message E]]; congruence. }
  split; [done|]. split; [|done].
  rewrite (Hframe "p/docs/rules/no-foo.md"); [reflexivity | done].
Defined.

Lemma functionStyle_rule_needs_doc_witness :
  generate (H := LegacySample.externals) "p" None Sample.world
  = Aborted "Could not find rule doc: p/docs/rules/old-rule.md" Sample.world.
Proof.
  apply (functionStyle_rule_needs_doc (H := LegacySample.externals) "p" None
           "old-rule" [("no-baz", Sample.ruleNoBaz)] Sample.world);
    reflexivity.
Defined.

Lemma generate_merge_throws_witness :
  generate (H := Sample.externals) "p" None Sample.world
  = Aborted "lines.splice is not a function" Sample.world /\
  generate (H := DeprecatedSample.externals) "p" None Sample.world
  = Aborted "lines.splice is not a function" Sample.world.
Proof.
  split.
  - eapply (generate_merge_throws (H := Sample.externals) "p" None
              [("no-foo", Sample.ruleNoFoo); ("no-bar", Sample.ruleNoBar);
               ("no-baz", Sample.ruleNoBaz)]
              [] [Sample.detailsNoBar; Sample.detailsNoBaz]
              Sample.detailsNoFoo);
      try reflexivity.
    by intros d' ?%elem_of_nil.
  - eapply (generate_merge_throws (H := DeprecatedSample.externals) "p" None
              [("no-bar", Sample.ruleNoBar); ("no-baz", Sample.ruleNoBaz);
               ("no-foo", Sample.ruleNoFoo)]
              [Sample.detailsNoBar] [Sample.detailsNoFoo]
              Sample.detailsNoBaz);
      try reflexivity.
    intros d' ->%list_elem_of_singleton. split; reflexivity.
Defined.

Lemma generate_completes_only_without_docs_witness :
  existsSync "p/README.md" Sample.worldNoDocs = true /\
  forall d, d ∈ [Sample.detailsNoBar] ->
            existsSync
              (pathToDocOf (H := DeprecatedSample.externalsOnlyDeprecated)
                 "p" (rd_name d))
              Sample.worldNoDocs = false /\
            rd_deprecated d = true.
Proof.
  eapply (generate_completes_only_without_docs
            (H := DeprecatedSample.externalsOnlyDeprecated) "p" None
            [("no-bar", Sample.ruleNoBar)] Sample.worldNoDocs);
    reflexivity.
Defined.

End RunWitnesses.

Section TitlesWitnesses.

Import RuleNotices.

Lemma makeTitle_fallback_witness :
  makeTitle (H := Sample.externals) "no-foo" (Some "") "test"
    (Some "desc-parens-name")
  = Ok "# `test/no-foo`" /\
  makeTitle (H := Sample.externals) "no-foo" None "test" None
  = Ok "# `test/no-foo`".
Proof.
  split.
  - apply (makeTitle_fallback (H := Sample.externals) "no-foo" "test"
             (Some "") (Some "desc-parens-name")); reflexivity.
  - apply (makeTitle_fallback (H := Sample.externals) "no-foo" "test" None
             None); reflexivity.
Defined.

Lemma makeTitle_throws_witness :
  (exists title,
     makeTitle (H := Sample.externals) "no-foo" None "test" (Some "name")
     = Ok title) /\
  makeTitle (H := Sample.externals) "no-foo" (Some "disallow foo") "test"
    (Some "description")
  = Throw "Unhandled rule doc title format: description".
Proof.
  split.
  - apply (makeTitle_throws (H := Sample.externals) "no-foo" "test" "name"
             None).
    apply list_elem_of_In; simpl; auto 10.
  - apply (makeTitle_throws (H := Sample.externals) "no-foo" "test"
             "description" (Some "disallow foo")).
    + intros Hin. repeat (apply elem_of_cons in Hin as [Hin|Hin]; [done|]).
      by apply elem_of_nil in Hin.
    + by left.
Defined.

End TitlesWitnesses.
